(** * wabbajack_modlist_extractor: the script [extract.py]

    A shallow embedding of the script and the properties of its manifest
    validation, its output and its exit status.

    Python values that come out of [json.load] are modelled by [json];
    Python's [str] is a [string] holding the UTF-8 bytes of the text.
    The script runs in a small state-and-exception monad over a [world]
    (file system, scoped scratch directory, standard output). *)

From Stdlib Require Import ZArith String Ascii List Bool Lia.
From Stdlib Require Import DecimalString.
From Stdlib Require Import Floats.PrimFloat.
From stdpp Require Import base option list strings gmap.

Import ListNotations.
Local Open Scope string_scope.
Local Open Scope Z_scope.

(** ** Values produced by [json.load]

    [JNull] is [None], [JBool] the two booleans, [JInt] and [JFloat] the
    numbers. The members of a [JDict] are listed in insertion order, which
    is the order in which Python prints and iterates them; [json.load] never
    returns two members with the same key. *)

#[warnings="-register-all"] Inductive json : Type :=
| JNull
| JBool (b : bool)
| JInt (n : Z)
| JFloat (f : float)
| JString (s : string)
| JList (items : list json)
| JDict (members : list (string * json)).

(** The parts of the Python runtime the script calls but does not define:
    [repr] of a float, [repr] of a str and [json.dumps(_, indent=4)]. *)
Class PyRuntime := {
  float_repr : float -> string;
  str_repr : string -> string;
  json_dumps : json -> string
}.

(** *** Truth value, as tested by [if not x] *)

Definition truthy (v : json) : bool :=
  match v with
  | JNull => false
  | JBool b => b
  | JInt n => negb (n =? 0)
  | JFloat f => negb (PrimFloat.eqb f PrimFloat.zero)
  | JString s => negb (String.eqb s "")
  | JList items => match items with [] => false | _ => true end
  | JDict members => match members with [] => false | _ => true end
  end.

Definition is_None (v : json) : bool :=
  match v with JNull => true | _ => false end.

Definition type_name (v : json) : string :=
  match v with
  | JNull => "NoneType"
  | JBool _ => "bool"
  | JInt _ => "int"
  | JFloat _ => "float"
  | JString _ => "str"
  | JList _ => "list"
  | JDict _ => "dict"
  end.

(** *** [str] and [repr] *)

Definition int_str (n : Z) : string := NilZero.string_of_int (Z.to_int n).

Section Repr.
Context `{PyRuntime}.

Fixpoint py_repr (v : json) : string :=
  match v with
  | JNull => "None"
  | JBool true => "True"
  | JBool false => "False"
  | JInt n => int_str n
  | JFloat f => float_repr f
  | JString s => str_repr s
  | JList items => "[" ++ String.concat ", " (map py_repr items) ++ "]"
  | JDict members =>
      "{" ++ String.concat ", " (map (fun '(k, x) => str_repr k ++ ": " ++ py_repr x) members) ++ "}"
  end.

(** [str(v)], what an f-string field [{v}] renders. *)
Definition py_str (v : json) : string :=
  match v with
  | JString s => s
  | _ => py_repr v
  end.
End Repr.


(** *** Text *)

(** [needle in hay] on two [str]. *)
Fixpoint str_contains (needle hay : string) : bool :=
  String.prefix needle hay
  || match hay with
     | EmptyString => false
     | String _ rest => str_contains needle rest
     end.

Definition is_continuation (c : ascii) : bool :=
  let n := N_of_ascii c in (128 <=? n)%N && (n <? 192)%N.

(** The characters of a [str]: every lead byte with the continuation bytes
    that follow it. *)
Fixpoint utf8_chars (s : string) : list string :=
  match s with
  | EmptyString => []
  | String c rest =>
      match rest with
      | EmptyString => [String c EmptyString]
      | String c' _ =>
          if is_continuation c' then
            match utf8_chars rest with
            | ch :: chs => String c ch :: chs
            | [] => [String c EmptyString]
            end
          else String c EmptyString :: utf8_chars rest
      end
  end.

Definition is_ascii (bytes : string) : bool :=
  forallb (fun c => (N_of_ascii c <? 128)%N) (list_ascii_of_string bytes).

(** ** Exceptions and the monad of the script *)

Inductive exn_class : Type :=
| AttributeError
| ValueError
| JSONDecodeError
| UnicodeDecodeError
| TypeError
| IndexError
| RuntimeError
| BadZipFile
| IsADirectoryError
| OSError.

(** [except ValueError] also catches the subclasses of [ValueError]. *)
Definition is_ValueError (k : exn_class) : bool :=
  match k with
  | ValueError | JSONDecodeError | UnicodeDecodeError => true
  | _ => false
  end.

(** How a computation ends: normally, with an exception, or with
    [SystemExit] raised by [sys.exit]. *)
Inductive outcome (A : Type) : Type :=
| Ret (a : A)
| Raise (k : exn_class) (msg : string)
| SystemExit (code : Z).
Arguments Ret {A} a.
Arguments Raise {A} k msg.
Arguments SystemExit {A} code.

(** What a path of the file system holds: a regular file, a directory, or
    a node of another kind (character device, FIFO) with the text it has
    received. Paths are compared as texts. *)
Inductive node : Type :=
| File (content : string)
| Dir
| Special (received : string).

(** [tempd] is the directory of [TemporaryDirectory]: [None] outside the
    [with] block, [Some None] while it is empty, [Some (Some c)] once the
    manifest has been extracted into it. It is private to the run, so it is
    kept apart from [fs], the files the rest of the system sees. *)
Record world : Type := World {
  fs : gmap string node;
  tempd : option (option string);
  stdout : list string
}.

Definition set_fs (f : gmap string node -> gmap string node) (w : world) : world :=
  World (f (fs w)) (tempd w) (stdout w).
Definition set_tempd (t : option (option string)) (w : world) : world :=
  World (fs w) t (stdout w).
Definition add_stdout (lines : list string) (w : world) : world :=
  World (fs w) (tempd w) (stdout w ++ lines).

Definition M (A : Type) : Type := world -> outcome A * world.

Definition ret {A} (a : A) : M A := fun w => (Ret a, w).

Definition bind {A B} (m : M A) (k : A -> M B) : M B :=
  fun w =>
    match m w with
    | (Ret a, w') => k a w'
    | (Raise c msg, w') => (Raise c msg, w')
    | (SystemExit code, w') => (SystemExit code, w')
    end.

#[global] Instance M_ret : MRet M := @ret.
#[global] Instance M_bind : MBind M := fun A B k m => bind m k.

Definition raise {A} (k : exn_class) (msg : string) : M A := fun w => (Raise k msg, w).
Definition sys_exit {A} (code : Z) : M A := fun w => (SystemExit code, w).
Definition when (b : bool) (m : M unit) : M unit := if b then m else ret tt.

(** [try: body except ...]: [handler] tells which classes are caught. *)
Definition try_except {A} (body : M A) (handler : exn_class -> string -> option (M A)) : M A :=
  fun w =>
    match body w with
    | (Raise c msg, w') =>
        match handler c msg with
        | Some h => h w'
        | None => (Raise c msg, w')
        end
    | r => r
    end.

(** The exit status of the process. An uncaught exception prints a
    traceback and ends the interpreter with status 1. *)
Definition exit_status {A} (o : outcome A) : Z :=
  match o with
  | Ret _ => 0
  | Raise _ _ => 1
  | SystemExit code => code
  end.

(** ** Python operations used by the script *)

Definition dict_get (key : string) (members : list (string * json)) : option json :=
  snd <$> find (fun kv => String.eqb (fst kv) key) members.

Definition no_attribute (v : json) (attr : string) : string :=
  "'" ++ type_name v ++ "' object has no attribute '" ++ attr ++ "'".

(** [v.get(key, None)]: only a dict has the method. *)
Definition py_get (v : json) (key : string) : M json :=
  match v with
  | JDict members => ret (default JNull (dict_get key members))
  | _ => raise AttributeError (no_attribute v "get")
  end.

Definition is_str (s : string) (v : json) : bool :=
  match v with JString t => String.eqb t s | _ => false end.

(** [needle in v] for a str [needle]: substring of a str, element of a
    list, key of a dict; other values are not containers. *)
Definition py_in (needle : string) (v : json) : M bool :=
  match v with
  | JString s => ret (str_contains needle s)
  | JList items => ret (existsb (is_str needle) items)
  | JDict members => ret (existsb (fun kv => String.eqb (fst kv) needle) members)
  | _ => raise TypeError ("argument of type '" ++ type_name v ++ "' is not iterable")
  end.

Definition py_len (v : json) : M nat :=
  match v with
  | JString s => ret (length (utf8_chars s))
  | JList items => ret (length items)
  | JDict members => ret (length members)
  | _ => raise TypeError ("object of type '" ++ type_name v ++ "' has no len()")
  end.

(** What [for e in v] goes through: the elements of a list, the
    characters of a str, the keys of a dict. *)
Definition elements (v : json) : option (list json) :=
  match v with
  | JString s => Some (JString <$> utf8_chars s)
  | JList items => Some items
  | JDict members => Some ((fun kv => JString (fst kv)) <$> members)
  | _ => None
  end.

Definition py_iter (v : json) : M (list json) :=
  match elements v with
  | Some items => ret items
  | None => raise TypeError ("'" ++ type_name v ++ "' object is not iterable")
  end.

Definition print (line : string) : M unit := fun w => (Ret tt, add_stdout [line] w).

(** ** The script *)

Definition MODLIST_FILENAME : string := "modlist".
Definition ESC : string := String (ascii_of_nat 27) EmptyString.
Definition LF : string := String (ascii_of_nat 10) EmptyString.
Definition RED : string := ESC ++ "[1;31m".
Definition BLUE : string := ESC ++ "[1;34m".
Definition RESET : string := ESC ++ "[0;0m".

Definition error_line (message : string) : string :=
  RED ++ " " ++ "[-] " ++ message ++ " " ++ RESET.
Definition info_line (message : string) : string :=
  BLUE ++ " " ++ "[*] " ++ message ++ " " ++ RESET.

Definition error (message : string) (do_exit : bool) : M unit :=
  print (error_line message);;
  if do_exit then sys_exit 1 else ret tt.

Definition info (message : string) : M unit := print (info_line message).

Record ModInfo : Type := {
  name : json;
  author : json;
  file_id : json;
  mod_id : json;
  game : json
}.

Section Script.
Context `{PyRuntime}.

(** [ModInfo.__init__] *)
Definition ModInfo_init (data : json) : M ModInfo :=
  state ← py_get data "State";
  if negb (truthy state) then
    raise AttributeError "The entry does not contain a State object"
  else
  etype ← py_get state "$type";
  if negb (truthy etype) then
    raise AttributeError "The entry does not contain a type"
  else
  found ← py_in "NexusDownloader" etype;
  if negb found then
    raise ValueError ("Unsupported download type " ++ py_str etype)
  else
  name ← py_get state "Name";
  author ← py_get state "Author";
  file_id ← py_get state "FileID";
  mod_id ← py_get state "ModID";
  game ← py_get state "GameName";
  if existsb is_None [name; author; file_id; mod_id; game] then
    print (py_str state);;
    raise AttributeError "The entry is missing a required attribute"
  else
    ret {| name := name; author := author; file_id := file_id;
           mod_id := mod_id; game := game |}.

(** [ModInfo.url] *)
Definition url (self : ModInfo) : string :=
  "https://www.nexusmods.com/" ++ py_str (game self) ++ "/mods/" ++ py_str (mod_id self)
  ++ "?tab=files&file_id=" ++ py_str (file_id self).

(** [ModInfo.mod_url] *)
Definition mod_url (self : ModInfo) : string :=
  "https://www.nexusmods.com/" ++ py_str (game self) ++ "/mods/" ++ py_str (mod_id self).

(** The text written for one entry of [output]. *)
Definition block (use_mods : bool) (entry : ModInfo) : string :=
  if use_mods then
    "## '" ++ py_str (name entry) ++ "' by " ++ py_str (author entry) ++ LF
    ++ mod_url entry ++ LF ++ LF
  else
    "## '" ++ py_str (name entry) ++ "' by " ++ py_str (author entry) ++ LF
    ++ url entry ++ LF ++ LF.

(** *** What the run finds around it *)

Record CompletedProcess : Type := {
  returncode : Z;
  proc_stdout : string
}.

(** A member of the archive; [payload] is [None] when the member cannot
    be extracted. *)
Record ZipInfo : Type := {
  filename : string;
  payload : option string
}.

Inductive load_result : Type :=
| Loaded (data : json)
| LoadFails (k : exn_class) (msg : string).

Record Env : Type := {
  INPUT : string;
  OUTPUT : string;
  use_mods : bool;
  (** [which("file")] finds the command *)
  which_file : bool;
  (** [run(["file", INPUT])] *)
  file_INPUT : CompletedProcess;
  (** [ZipFile(INPUT).filelist], [None] when the archive cannot be opened *)
  filelist : option (list ZipInfo);
  (** [run(["file", modlist_path])] *)
  file_modlist : CompletedProcess;
  (** [json.load] of the extracted manifest *)
  json_load : load_result;
  (** whether the system lets the process open this path for writing *)
  may_write : string -> bool
}.

Definition is_file (p : string) : M bool :=
  fun w => (Ret (match fs w !! p with Some (File _) => true | _ => false end), w).

Definition decode_ascii (bytes : string) : M string :=
  if is_ascii bytes then ret bytes
  else raise UnicodeDecodeError "'ascii' codec can't decode byte".

(** [open(p, "w")]: a directory cannot be opened; a regular file is
    truncated, a missing one created, when the system allows it
    ([may_write] stands for permissions and the existence of the parent
    directory). *)
Definition open_w (env : Env) (p : string) : M unit :=
  fun w =>
    match fs w !! p with
    | Some Dir => (Raise IsADirectoryError p, w)
    | Some (Special _) =>
        if may_write env p then (Ret tt, w) else (Raise OSError p, w)
    | _ =>
        if may_write env p then (Ret tt, set_fs (insert p (File "")) w)
        else (Raise OSError p, w)
    end.

(** [outf.write(text)] on the file opened at [p]. *)
Definition write (p : string) (text : string) : M unit :=
  fun w =>
    match fs w !! p with
    | Some (File c) => (Ret tt, set_fs (insert p (File (c ++ text))) w)
    | Some (Special c) => (Ret tt, set_fs (insert p (Special (c ++ text))) w)
    | _ => (Raise OSError p, w)
    end.

(** [with TemporaryDirectory(...) as tempd]: the directory is removed
    however the block is left. *)
Definition with_TemporaryDirectory {A} (body : M A) : M A :=
  fun w =>
    let '(o, w') := body (set_tempd (Some None) w) in
    (o, set_tempd None w').

Definition ZipFile (env : Env) : M (list ZipInfo) :=
  match filelist env with
  | Some members => ret members
  | None => raise BadZipFile "File is not a zip file"
  end.

Definition zip_extract (m : ZipInfo) : M unit :=
  match payload m with
  | Some bytes => fun w => (Ret tt, set_tempd (Some (Some bytes)) w)
  | None => raise RuntimeError ("cannot extract " ++ filename m)
  end.

Definition modlist_path_is_file : M bool :=
  fun w => (Ret (match tempd w with Some (Some _) => true | _ => false end), w).

Definition load (env : Env) : M json :=
  match json_load env with
  | Loaded data => ret data
  | LoadFails k msg => raise k msg
  end.
End Script.

Section Main.
Context `{PyRuntime}.

Definition list_empty {A} (l : list A) : bool :=
  match l with [] => true | _ => false end.

(** Lines 92-111: the checks made before the archive is opened.
    [parsed.INPUT.resolve(strict=True)] only computes a path that is not
    used, for a file that was just seen to exist. *)
Definition check_requirements (env : Env) : M unit :=
  input_there ← is_file (INPUT env);
  when (negb input_there) (error "The input file does not exist" true);;
  output_there ← is_file (OUTPUT env);
  when output_there (error "The output file does already exist" true);;
  when (negb (which_file env)) (error "The file command is not available" true);;
  info ("Trying to use file " ++ INPUT env);;
  when (negb (returncode (file_INPUT env) =? 0))
    (error "Executing the file command failed" true);;
  described ← decode_ascii (proc_stdout (file_INPUT env));
  when (negb (str_contains "Zip archive data" described))
    (error "The input file does not look like a ZIP file" true);;
  info "Successfully checked requirements".

(** Lines 115-124: find the manifest in the archive and extract it. *)
Definition extract_modlist (env : Env) : M unit :=
  members ← ZipFile env;
  let modlist := filter (fun x => filename x = MODLIST_FILENAME) members in
  when (list_empty modlist) (error "The input file does not contain a modlist file" true);;
  when (1 <? length modlist)%nat (error "Got more than one modlist file" true);;
  match modlist with
  | m :: _ => zip_extract m
  | [] => raise IndexError "list index out of range"
  end.

(** Lines 126-134: the extracted file is there and is text. *)
Definition check_modlist (env : Env) : M unit :=
  extracted ← modlist_path_is_file;
  when (negb extracted) (error "The extracted modlist file does not exist anymore" true);;
  when (negb (returncode (file_modlist env) =? 0))
    (error "Executing the file command failed" true);;
  described ← decode_ascii (proc_stdout (file_modlist env));
  when (negb (str_contains "ASCII text" described))
    (error "The modlist file does not look like a text file" true).

(** Lines 136-146: parse the manifest. *)
Definition parse_modlist (env : Env) : M json :=
  data ← try_except (load env)
           (fun k e =>
              match k with
              | JSONDecodeError =>
                  Some (error ("Failed to parse modlists: " ++ e) true;; mret (JDict []))
              | _ => None
              end);
  when (negb (truthy data)) (error "Failed to load data from modlist" true);;
  info "Successfully parsed modlist";;
  mret data.

Definition TEMP : string := "temp".

(** Lines 148-149: the manifest is dumped to the file [temp] of the
    working directory. *)
Definition dump_modlist (env : Env) (data : json) : M unit :=
  open_w env TEMP;;
  write TEMP (json_dumps data).

(** Lines 151-158: the list of archives. *)
Definition get_archives (data : json) : M (list json) :=
  archives ← py_get data "Archives";
  when (is_None archives) (error "Failed to get archives data from modlist" true);;
  when (negb (truthy archives)) (error "No archives defined in modlist" true);;
  n ← py_len archives;
  info ("Got " ++ int_str (Z.of_nat n) ++ " in modlist");;
  py_iter archives.

Definition read_archives (env : Env) (data : json) : M (list json) :=
  dump_modlist env data;;
  get_archives data.

(** Lines 159-168: the loop over [enumerate(archives)]; [output] is the
    list built so far. *)
Fixpoint validate_loop (i : nat) (archives : list json) (output : list ModInfo)
  : M (list ModInfo) :=
  match archives with
  | [] => mret output
  | e :: rest =>
      output' ← try_except
                  (entry ← ModInfo_init e; mret (output ++ [entry])%list)
                  (fun k msg =>
                     if is_ValueError k then
                       Some (error ("Error for entry " ++ int_str (Z.of_nat i) ++ ": " ++ msg) false;;
                             mret output)
                     else
                       match k with
                       | AttributeError =>
                           Some (error ("Error for entry " ++ int_str (Z.of_nat i) ++ ": " ++ msg) false;;
                                 mret output)
                       | _ => None
                       end);
      validate_loop (S i) rest output'
  end.

Fixpoint write_entries (env : Env) (output : list ModInfo) : M unit :=
  match output with
  | [] => mret tt
  | entry :: rest =>
      write (OUTPUT env) (block (use_mods env) entry);;
      write_entries env rest
  end.

(** Lines 170-175 *)
Definition write_output (env : Env) (output : list ModInfo) : M unit :=
  open_w env (OUTPUT env);;
  write_entries env output.

(** The body of the [with TemporaryDirectory] block, lines 115-175. *)
Definition in_tempdir (env : Env) : M unit :=
  extract_modlist env;;
  check_modlist env;;
  data ← parse_modlist env;
  archives ← read_archives env data;
  output ← validate_loop 0 archives [];
  write_output env output.

Definition main (env : Env) : M unit :=
  check_requirements env;;
  with_TemporaryDirectory (in_tempdir env).

(** *** Prefixes of the run, to say how far a run gets *)

Definition mkdtemp : M unit := fun w => (Ret tt, set_tempd (Some None) w).

(** The run up to the call of [json.load] (lines 92-134). *)
Definition up_to_load (env : Env) : M unit :=
  check_requirements env;;
  mkdtemp;;
  extract_modlist env;;
  check_modlist env.

(** The run up to the validation loop (lines 92-158); its value is the
    sequence the loop goes through. *)
Definition up_to_validation (env : Env) : M (list json) :=
  up_to_load env;;
  data ← parse_modlist env;
  read_archives env data.

(** Lines 159-175. *)
Definition validate_and_write (env : Env) (archives : list json) : M unit :=
  output ← validate_loop 0 archives [];
  write_output env output.

(** What is left of the [with] block once the manifest has been
    extracted and checked (lines 136-175). *)
Definition after_load (env : Env) : M unit :=
  data ← parse_modlist env;
  archives ← read_archives env data;
  validate_and_write env archives.

Definition cleanup {A} (r : outcome A * world) : outcome A * world :=
  (fst r, set_tempd None (snd r)).
End Main.

(** ** What the validator decides, read off a run of [ModInfo_init] *)

Definition quiet : world := World ∅ None [].

Section Verdict.
Context `{PyRuntime}.

Definition verdict (e : json) : outcome ModInfo := fst (ModInfo_init e quiet).
Definition printed (e : json) : list string := stdout (snd (ModInfo_init e quiet)).

(** The entry passes validation: the constructor returns a record. *)
Definition accepted (e : json) : option ModInfo :=
  match verdict e with Ret r => Some r | _ => None end.

(** The entry fails validation: the constructor raises one of the two
    classes the loop catches. *)
Definition rejected (e : json) : option string :=
  match verdict e with
  | Raise k msg =>
      if is_ValueError k then Some msg
      else match k with AttributeError => Some msg | _ => None end
  | _ => None
  end.

(** The lines an entry at index [i] adds to standard output. *)
Definition entry_log (i : nat) (e : json) : list string :=
  printed e ++
  match rejected e with
  | Some msg => [error_line ("Error for entry " ++ int_str (Z.of_nat i) ++ ": " ++ msg)]
  | None => []
  end.

Fixpoint loop_log (i : nat) (archives : list json) : list string :=
  match archives with
  | [] => []
  | e :: rest => entry_log i e ++ loop_log (S i) rest
  end.
End Verdict.

(** The text of the output file for [output]. *)
Definition blocks `{PyRuntime} (env : Env) (output : list ModInfo) : string :=
  String.concat "" (map (block (use_mods env)) output).

Definition decided `{PyRuntime} (e : json) : bool :=
  match accepted e, rejected e with
  | None, None => false
  | _, _ => true
  end.

(** ** The conditions under which an entry is accepted *)

Definition REQUIRED : list string := ["Name"; "Author"; "FileID"; "ModID"; "GameName"].

(** [state.get(key, None)] *)
Definition field (state : list (string * json)) (key : string) : json :=
  default JNull (dict_get key state).

Definition field_present (state : list (string * json)) (key : string) : bool :=
  match dict_get key state with
  | Some v => negb (is_None v)
  | None => false
  end.

(** The test of line 57 on the values it is defined for. *)
Definition has_marker (etype : json) : bool :=
  match etype with
  | JString s => str_contains "NexusDownloader" s
  | JList items => existsb (is_str "NexusDownloader") items
  | JDict members => existsb (fun kv => String.eqb (fst kv) "NexusDownloader") members
  | _ => false
  end.

(** The same test in the words of the specification: the type tag is a text
    that has the marker as a substring. *)
Definition has_marker_substring (etype : json) : bool :=
  match etype with
  | JString s => str_contains "NexusDownloader" s
  | _ => false
  end.

(** The [State] object of an entry, when it has one. *)
Definition state_of (e : json) : option (list (string * json)) :=
  match e with
  | JDict members =>
      match dict_get "State" members with
      | Some (JDict state) => Some state
      | _ => None
      end
  | _ => None
  end.

(** A truthy [State] object, a truthy [$type] that passes [marker], and the
    five required fields present and not null. *)
Definition meets (marker : json -> bool) (e : json) : bool :=
  match state_of e with
  | Some state =>
      truthy (JDict state)
      && match dict_get "$type" state with
         | Some etype => truthy etype && marker etype
         | None => false
         end
      && forallb (field_present state) REQUIRED
  | None => false
  end.

(** Entries whose [$type] is a truthy number or boolean: line 57 applies
    [in] to a value that is no container. *)
Definition type_not_container (e : json) : bool :=
  match state_of e with
  | Some state =>
      match dict_get "$type" state with
      | Some etype =>
          truthy etype
          && match etype with
             | JBool _ | JInt _ | JFloat _ => true
             | _ => false
             end
      | None => false
      end
  | None => false
  end.

(** What the constructor returns for an entry that reaches the test of
    the type tag. *)
Definition verdict_at_type_test `{PyRuntime} (state : list (string * json)) (etype : json)
  : outcome ModInfo :=
  match etype with
  | JString _ | JList _ | JDict _ =>
      if has_marker etype then
        if forallb (field_present state) REQUIRED then
          Ret {| name := field state "Name"; author := field state "Author";
                 file_id := field state "FileID"; mod_id := field state "ModID";
                 game := field state "GameName" |}
        else Raise AttributeError "The entry is missing a required attribute"
      else Raise ValueError ("Unsupported download type " ++ py_str etype)
  | _ => Raise TypeError ("argument of type '" ++ type_name etype ++ "' is not iterable")
  end.

(** ** Relations between the world before and after a computation *)

Definition stable {A} (R : relation world) (m : M A) : Prop :=
  ∀ w, R w (snd (m w)).

(** Relations that ignore standard output and the scratch directory. *)
Class WorldRel (R : relation world) : Prop := {
  world_rel_preorder :: PreOrder R;
  world_rel_stdout : ∀ w lines, R w (add_stdout lines w);
  world_rel_tempd : ∀ w t, R w (set_tempd t w)
}.

(** On [R], opening and writing the file at [p] are harmless. *)
Definition writes_allowed (R : relation world) (env : Env) (p : string) : Prop :=
  stable R (open_w env p) ∧ ∀ text, stable R (write p text).

Definition same_fs : relation world := fun w w' => fs w' = fs w.
Definition same_at (p : string) : relation world := fun w w' => fs w' !! p = fs w !! p.

Inductive node_kind : Type := Regular | Directory | Other.

(** A path that is absent and one that holds a regular file are alike for
    [open(p, "w")]. *)
Definition kind (n : option node) : node_kind :=
  match n with
  | None | Some (File _) => Regular
  | Some Dir => Directory
  | Some (Special _) => Other
  end.

Definition same_kind (p : string) : relation world :=
  fun w w' => kind (fs w' !! p) = kind (fs w !! p).

(** ** Sample inputs *)

(** A runtime to evaluate sample runs with; the properties below hold for
    every runtime. *)
Definition sample_runtime : PyRuntime :=
  {| float_repr := fun _ => "0.0";
     str_repr := fun s => "'" ++ s ++ "'";
     json_dumps := fun v => match v with JDict _ => "{...}" | _ => "..." end |}.

Definition entry_of (state : list (string * json)) : json := JDict [("State", JDict state)].

Definition nexus_state (etype : json) (n a f m g : json) : list (string * json) :=
  [("$type", etype); ("Name", n); ("Author", a); ("FileID", f); ("ModID", m); ("GameName", g)].

Definition NEXUS : json := JString "NexusDownloader, Wabbajack.Lib".

(** The two entries of the example of the specification. *)
Definition entry_foo : json :=
  entry_of (nexus_state NEXUS (JString "Foo") (JString "Bar") (JInt 1) (JInt 2)
              (JString "skyrimspecialedition")).
Definition entry_other : json := entry_of [("$type", JString "OtherDownloader")].

Definition entry_baz : json :=
  entry_of (nexus_state NEXUS (JString "Baz") (JString "Qux") (JInt 30) (JInt 40)
              (JString "fallout4")).


(** A type tag that is a list holding the marker, and one that is a number. *)
Definition entry_list_type : json :=
  entry_of (nexus_state (JList [JString "NexusDownloader"]) (JString "Foo") (JString "Bar")
              (JInt 1) (JInt 2) (JString "skyrimspecialedition")).
Definition entry_number_type : json := entry_of [("$type", JInt 5)].

Definition sample_env (mods : bool) (output : string) (manifest : json) : Env :=
  {| INPUT := "list.wabbajack";
     OUTPUT := output;
     use_mods := mods;
     which_file := true;
     file_INPUT := {| returncode := 0; proc_stdout := "list.wabbajack: Zip archive data" |};
     filelist := Some [ {| filename := "modlist"; payload := Some "{...}" |};
                        {| filename := "modlist-image"; payload := Some "" |} ];
     file_modlist := {| returncode := 0; proc_stdout := "modlist: ASCII text" |};
     json_load := Loaded manifest;
     may_write := fun _ => true |}.

Definition manifest_of (archives : json) : json := JDict [("Archives", archives)].

(** A working directory that holds the input archive only. *)
Definition sample_world : world :=
  World {[ "list.wabbajack" := File "PK" ]} None [].

(** ** The first claim in the words of the specification

    A record is built exactly for the entries whose type tag is a text with
    the marker as a substring, and every other entry is skipped with a
    warning while the loop goes on. *)
Definition substring_claim `{PyRuntime} (e : json) : Prop :=
  (is_Some (accepted e) ↔ meets has_marker_substring e = true)
  ∧ (meets has_marker_substring e = false →
     ∃ msg,
       rejected e = Some msg
       ∧ ∀ i rest output w,
           validate_loop i (e :: rest) output w =
           validate_loop (S i) rest output
             (add_stdout
                (printed e
                 ++ [error_line ("Error for entry " ++ int_str (Z.of_nat i) ++ ": " ++ msg)])
                w)).

(** ** Exit codes *)

(** Whenever [m] ends with [SystemExit], the code is 1. *)
Definition exits_with_one {A} (m : M A) : Prop :=
  ∀ w code, fst (m w) = SystemExit code → code = 1.

(** The same run on an archive whose manifest is described and parsed
    differently. *)
Definition with_manifest (env : Env) (described : CompletedProcess) (parsed : load_result)
  : Env :=
  {| INPUT := INPUT env; OUTPUT := OUTPUT env; use_mods := use_mods env;
     which_file := which_file env; file_INPUT := file_INPUT env;
     filelist := filelist env; file_modlist := described; json_load := parsed;
     may_write := may_write env |}.

(** ** Two claims in the words of the specification *)

(** Only a manifest whose ["Archives"] value is a non-empty sequence gets
    to validation. *)
Definition sequence_claim `{PyRuntime} (env : Env) (w : world) : Prop :=
  ∀ archives w2,
    up_to_validation env w = (Ret archives, w2) →
    ∃ members,
      json_load env = Loaded (JDict members)
      ∧ dict_get "Archives" members = Some (JList archives)
      ∧ archives ≠ [].


(** Manifests and worlds for the sample runs. *)
Definition archives_mixed : list json := [entry_foo; entry_other; entry_baz; entry_foo].
Definition manifest_mixed : json := manifest_of (JList archives_mixed).
Definition manifest_rejected : json := manifest_of (JList [entry_other; JInt 3]).
Definition manifest_number_type : json := manifest_of (JList [entry_number_type; entry_foo]).
Definition manifest_object : json := manifest_of (JDict [("a", JInt 1)]).




(** An archive without a manifest, and one with two. *)
Definition env_with_members (members : list ZipInfo) : Env :=
  let env := sample_env false "out.txt" manifest_mixed in
  {| INPUT := INPUT env; OUTPUT := OUTPUT env; use_mods := use_mods env;
     which_file := which_file env; file_INPUT := file_INPUT env;
     filelist := Some members; file_modlist := file_modlist env;
     json_load := json_load env; may_write := may_write env |}.

Definition member (n : string) : ZipInfo := {| filename := n; payload := Some "{...}" |}.

(** ** Further notions for the properties of the whole script *)

(** [Path(p).is_file()] in world [w]. *)
Definition holds_file (w : world) (p : string) : bool :=
  match fs w !! p with
  | Some (File _) => true
  | _ => false
  end.

(** The conditions of lines 92-109 under which the archive gets opened. *)
Definition requirements_met (env : Env) (w : world) : bool :=
  holds_file w (INPUT env)
  && negb (holds_file w (OUTPUT env))
  && which_file env
  && (returncode (file_INPUT env) =? 0)
  && is_ascii (proc_stdout (file_INPUT env))
  && str_contains "Zip archive data" (proc_stdout (file_INPUT env)).

(** The two lines a passed check of the requirements prints. *)
Definition requirements_log (env : Env) : list string :=
  [info_line ("Trying to use file " ++ INPUT env);
   info_line "Successfully checked requirements"].

(** The same run with the flag [-m] set or not. *)
Definition with_use_mods (env : Env) (mods : bool) : Env :=
  {| INPUT := INPUT env; OUTPUT := OUTPUT env; use_mods := mods;
     which_file := which_file env; file_INPUT := file_INPUT env;
     filelist := filelist env; file_modlist := file_modlist env;
     json_load := json_load env; may_write := may_write env |}.

(** What is at the output path once [text] has been written through
    [open(OUTPUT, "w")]: a device has received it, a regular file holds it
    and nothing else. *)
Definition written_node (old : option node) (text : string) : node :=
  match old with
  | Some (Special received) => Special (received ++ text)
  | _ => File text
  end.





Definition unparsable : load_result :=
  LoadFails JSONDecodeError "Expecting value: line 1 column 1 (char 0)".

Definition undecodable : load_result :=
  LoadFails UnicodeDecodeError "'utf-8' codec can't decode byte 0xff".

Definition entry_lower_case : json :=
  entry_of (nexus_state (JString "nexusdownloader") (JString "Foo") (JString "Bar") (JInt 1)
              (JInt 2) (JString "skyrimspecialedition")).

Definition entry_no_author : json :=
  entry_of [("$type", NEXUS); ("Name", JString "Foo"); ("FileID", JInt 1); ("ModID", JInt 2);
            ("GameName", JString "skyrimspecialedition")].


(** ** Text that can be written

    A [str] is kept as the bytes UTF-8 gives it. A lone surrogate, which
    JSON can spell (as in ["\ud800"]) and UTF-8 refuses, is kept as the
    three bytes [ED A0..BF 80..BF] it would get, a sequence that the
    encoding of no other code point holds. On a stream encoded in UTF-8
    [print] and [write] raise [UnicodeEncodeError] for a text with such a
    code point. The model of [print] and of [write] takes the text to be
    encodable; a property that needs a line of the manifest to be printed,
    or a block to be written, says so with [encodable]. *)
Definition is_surrogate_lead (c c' : ascii) : bool :=
  (N_of_ascii c =? 237)%N && (160 <=? N_of_ascii c')%N && (N_of_ascii c' <? 192)%N.

Fixpoint encodable (text : string) : bool :=
  match text with
  | EmptyString => true
  | String c rest =>
      match rest with
      | String c' _ => negb (is_surrogate_lead c c')
      | EmptyString => true
      end
      && encodable rest
  end.

(** Every block that the accepted entries of the list would give, with the
    flag or without it, can be encoded. *)
Definition blocks_encodable `{PyRuntime} (archives : list json) : Prop :=
  Forall (fun e => ∀ r flag, accepted e = Some r → encodable (block flag r) = true) archives.

(** Two more manifests with the numeric type tag: after an entry that
    passes, and on its own. *)
Definition manifest_passing_then_number : json :=
  manifest_of (JList [entry_foo; entry_number_type]).
Definition manifest_only_number : json := manifest_of (JList [entry_number_type]).
(** * Properties *)

Local Open Scope list_scope.

Example int_str_examples :
  int_str 0 = "0" ∧ int_str 42 = "42" ∧ int_str (-7) = "-7".
Proof. repeat split; reflexivity. Qed.

(** [str_contains] is the substring relation. *)
Lemma prefix_split (s1 s2 : string) :
  String.prefix s1 s2 = true ↔ ∃ rest, s2 = (s1 +:+ rest)%string.
Proof.
  revert s2. induction s1 as [|a s1 IH]; intros s2.
  - split; [intros _; by exists s2|]. intros _. by destruct s2.
  - destruct s2 as [|b s2]; simpl.
    + split; [done|]. by intros [rest Hr].
    + destruct (Ascii.ascii_dec a b) as [->|Hne].
      * rewrite IH. split; intros [rest Hr]; exists rest.
        -- by rewrite Hr.
        -- by injection Hr.
      * split; [done|]. intros [rest Hr]. by injection Hr.
Qed.

Lemma str_contains_spec (needle hay : string) :
  str_contains needle hay = true ↔
  ∃ before after, hay = (before +:+ needle +:+ after)%string.
Proof.
  induction hay as [|c hay IH].
  - change (str_contains needle EmptyString)
      with (String.prefix needle EmptyString || false).
    rewrite orb_false_r, prefix_split. split.
    + intros [rest Hr]. by exists EmptyString, rest.
    + intros (before & after & Hr). destruct before; [by exists after|done].
  - change (str_contains needle (String c hay))
      with (String.prefix needle (String c hay) || str_contains needle hay).
    rewrite orb_true_iff, prefix_split, IH. split.
    + intros [[rest Hr]|(before & after & Hr)].
      * by exists EmptyString, rest.
      * exists (String c before), after. by rewrite Hr.
    + intros (before & after & Hr). destruct before as [|b before].
      * left. by exists after.
      * right. injection Hr as -> Hr. by exists before, after.
Qed.

Ltac step := unfold mbind, M_bind, bind, mret, M_ret, ret, raise, print; simpl.

Section Validator.
Context `{PyRuntime}.

Lemma add_stdout_nil w : add_stdout [] w = w.
Proof. destruct w; unfold add_stdout; simpl. by rewrite app_nil_r. Qed.

Lemma add_stdout_app l1 l2 w : add_stdout l2 (add_stdout l1 w) = add_stdout (l1 ++ l2) w.
Proof. destruct w; unfold add_stdout; simpl. by rewrite app_assoc. Qed.

(** The constructor only prints: its result does not depend on the world. *)
Lemma ModInfo_init_world e w :
  ModInfo_init e w = (verdict e, add_stdout (printed e) w).
Proof.
  unfold verdict, printed, ModInfo_init.
  destruct e; step; try by rewrite add_stdout_nil.
  destruct (truthy _); step; try by rewrite add_stdout_nil.
  destruct (default JNull (dict_get "State" members)); step; try by rewrite add_stdout_nil.
  destruct (truthy _); step; try by rewrite add_stdout_nil.
  destruct (default JNull (dict_get "$type" members0)); step; try by rewrite add_stdout_nil.
  all: repeat (match goal with |- context [if ?b then _ else _] => destruct b end; step);
    first [reflexivity | by rewrite add_stdout_nil].
Qed.

Lemma verdict_no_exit e code : verdict e ≠ SystemExit code.
Proof.
  unfold verdict, ModInfo_init.
  destruct e; step; try done.
  destruct (truthy _); step; try done.
  destruct (default JNull (dict_get "State" members)); step; try done.
  destruct (truthy _); step; try done.
  destruct (default JNull (dict_get "$type" members0)); step; try done.
  all: repeat (match goal with |- context [if ?b then _ else _] => destruct b end; step);
    done.
Qed.

(** One turn of the loop. *)
Lemma validate_loop_cons i e rest output w :
  validate_loop i (e :: rest) output w =
  match verdict e with
  | Ret r => validate_loop (S i) rest (output ++ [r]) (add_stdout (entry_log i e) w)
  | Raise k msg =>
      match rejected e with
      | Some _ => validate_loop (S i) rest output (add_stdout (entry_log i e) w)
      | None => (Raise k msg, add_stdout (entry_log i e) w)
      end
  | SystemExit code => (SystemExit code, add_stdout (entry_log i e) w)
  end.
Proof.
  simpl. unfold entry_log, rejected.
  unfold mbind at 1, M_bind at 1, bind at 1, try_except.
  unfold mbind at 1, M_bind at 1, bind at 1.
  rewrite ModInfo_init_world.
  destruct (verdict e) as [r|k msg|code]; simpl.
  - by rewrite app_nil_r.
  - destruct k; simpl; unfold error; step; rewrite ?add_stdout_app, ?app_nil_r; reflexivity.
  - by rewrite app_nil_r.
Qed.

Lemma validate_loop_decided archives :
  Forall (fun e => decided e = true) archives →
  ∀ i output w,
    validate_loop i archives output w =
    (Ret (output ++ omap accepted archives), add_stdout (loop_log i archives) w).
Proof.
  induction 1 as [|e rest He _ IH]; intros i output w.
  - simpl. step. by rewrite app_nil_r, add_stdout_nil.
  - rewrite validate_loop_cons. simpl.
    unfold decided, accepted in *.
    destruct (verdict e) as [r|k msg|code] eqn:Hv.
    + rewrite IH, add_stdout_app. by rewrite <- app_assoc.
    + destruct (rejected e); [|done]. by rewrite IH, add_stdout_app.
    + by apply verdict_no_exit in Hv.
Qed.

(** The loop ends normally only when every entry got a verdict, and
    otherwise with the exception of the first entry that did not. *)
Lemma validate_loop_outcome archives i output w :
  match fst (validate_loop i archives output w) with
  | Ret out => Forall (fun e => decided e = true) archives
  | Raise _ _ => Exists (fun e => decided e = false) archives
  | SystemExit _ => False
  end.
Proof.
  revert i output w. induction archives as [|e rest IH]; intros i output w.
  - simpl. constructor.
  - rewrite validate_loop_cons.
    destruct (verdict e) as [r|k msg|code] eqn:Hv.
    + specialize (IH (S i) (output ++ [r]) (add_stdout (entry_log i e) w)).
      destruct (fst (validate_loop _ _ _ _)); [|by apply Exists_cons_tl|done].
      constructor; [|done]. unfold decided, accepted. by rewrite Hv.
    + destruct (rejected e) as [m|] eqn:Hr.
      * specialize (IH (S i) output (add_stdout (entry_log i e) w)).
        destruct (fst (validate_loop _ _ _ _)); [|by apply Exists_cons_tl|done].
        constructor; [|done]. unfold decided. rewrite Hr. by destruct (accepted e).
      * simpl. apply Exists_cons_hd. unfold decided, accepted. by rewrite Hv, Hr.
    + by apply verdict_no_exit in Hv.
Qed.

Lemma validate_loop_fs archives i output w :
  fs (snd (validate_loop i archives output w)) = fs w
  ∧ tempd (snd (validate_loop i archives output w)) = tempd w.
Proof.
  revert i output w. induction archives as [|e rest IH]; intros i output w.
  - done.
  - rewrite validate_loop_cons.
    destruct (verdict e); [rewrite (proj1 (IH _ _ _)), (proj2 (IH _ _ _)); done| |done].
    destruct (rejected e); [rewrite (proj1 (IH _ _ _)), (proj2 (IH _ _ _)); done|done].
Qed.
End Validator.

(** ** Frames: what a phase of the run leaves alone *)

Section Frames.
Context `{PyRuntime}.

Lemma stable_pure {A} R `{!Reflexive R} (m : M A) :
  (∀ w, snd (m w) = w) → stable R m.
Proof. intros Hm w. by rewrite Hm. Qed.

Lemma stable_bind {A B} R `{!PreOrder R} (m : M A) (k : A → M B) :
  stable R m → (∀ a, stable R (k a)) → stable R (m ≫= k).
Proof.
  intros Hm Hk w. unfold mbind, M_bind, bind. specialize (Hm w).
  destruct (m w) as [[a|c msg|code] w1]; simpl in *; [|done|done].
  etrans; [exact Hm|apply Hk].
Qed.

Lemma stable_ret {A} R `{!Reflexive R} (a : A) : stable R (mret a).
Proof. by apply stable_pure. Qed.

Lemma stable_raise {A} R `{!Reflexive R} k msg : stable R (@raise A k msg).
Proof. by apply stable_pure. Qed.

Lemma stable_sys_exit {A} R `{!Reflexive R} code : stable R (@sys_exit A code).
Proof. by apply stable_pure. Qed.

Lemma stable_when R `{!Reflexive R} b m : stable R m → stable R (when b m).
Proof. destruct b; [done|]. intros _. by apply stable_pure. Qed.

Lemma stable_try_except {A} R `{!PreOrder R} (body : M A) handler :
  stable R body →
  (∀ k msg h, handler k msg = Some h → stable R h) →
  stable R (try_except body handler).
Proof.
  intros Hb Hh w. unfold try_except. specialize (Hb w).
  destruct (body w) as [[a|c msg|code] w1]; simpl in *; [done| |done].
  destruct (handler c msg) as [h|] eqn:Hc; [|done].
  etrans; [exact Hb|]. by eapply Hh.
Qed.

Lemma stable_print R `{!WorldRel R} line : stable R (print line).
Proof. intros w. apply world_rel_stdout. Qed.

Lemma stable_error R `{!WorldRel R} message do_exit : stable R (error message do_exit).
Proof.
  unfold error. apply stable_bind; [apply _|by apply stable_print|].
  intros _. destruct do_exit; [apply stable_sys_exit|apply stable_ret]; apply _.
Qed.

Lemma stable_info R `{!WorldRel R} message : stable R (info message).
Proof. by apply stable_print. Qed.

Lemma stable_mkdtemp R `{!WorldRel R} : stable R mkdtemp.
Proof. intros w. apply world_rel_tempd. Qed.

Lemma stable_zip_extract R `{!WorldRel R} m : stable R (zip_extract m).
Proof.
  unfold zip_extract. destruct (payload m); [|apply stable_raise; apply _].
  intros w. apply world_rel_tempd.
Qed.

Lemma stable_with_TemporaryDirectory {A} R `{!WorldRel R} (body : M A) :
  stable R body → stable R (with_TemporaryDirectory body).
Proof.
  intros Hb w. unfold with_TemporaryDirectory.
  specialize (Hb (set_tempd (Some None) w)).
  destruct (body _) as [o w1]; simpl in *.
  etrans; [apply (world_rel_tempd w (Some None))|].
  etrans; [exact Hb|]. apply world_rel_tempd.
Qed.

Lemma stable_py_get R `{!Reflexive R} v key : stable R (py_get v key).
Proof. apply stable_pure; [done|]. by destruct v. Qed.

Lemma stable_py_in R `{!Reflexive R} needle v : stable R (py_in needle v).
Proof. apply stable_pure; [done|]. by destruct v. Qed.

Lemma stable_py_len R `{!Reflexive R} v : stable R (py_len v).
Proof. apply stable_pure; [done|]. by destruct v. Qed.

Lemma stable_py_iter R `{!Reflexive R} v : stable R (py_iter v).
Proof. apply stable_pure; [done|]. unfold py_iter. by destruct (elements v). Qed.

Lemma stable_decode_ascii R `{!Reflexive R} bytes : stable R (decode_ascii bytes).
Proof. apply stable_pure; [done|]. unfold decode_ascii. by destruct (is_ascii bytes). Qed.

Lemma stable_ModInfo_init R `{!WorldRel R} e : stable R (ModInfo_init e).
Proof. intros w. rewrite ModInfo_init_world. apply world_rel_stdout. Qed.
End Frames.

Create HintDb stable.
#[export] Hint Resolve stable_ret stable_raise stable_sys_exit stable_when stable_print
  stable_error stable_info stable_mkdtemp stable_zip_extract stable_py_get stable_py_in stable_py_len
  stable_py_iter stable_decode_ascii stable_ModInfo_init : stable.

(** Walks through a chain of binds, leaving the primitive steps to the
    hint base. *)
Ltac stable_tac :=
  repeat first
    [ solve [eauto with stable typeclass_instances]
    | apply stable_bind; [apply _| |intros ?]
    | apply stable_when; [apply _|]
    | apply stable_try_except; [apply _| |intros ? ? ? ?]
    | apply stable_pure; [apply _|done]
    | match goal with
      | |- stable _ (match ?x with _ => _ end) => destruct x
      | H : context [match ?k with _ => _ end] |- _ => destruct k; simplify_eq
      end ].

Section Phases.
Context `{PyRuntime}.
Context (R : relation world) `{!WorldRel R}.

Lemma stable_check_requirements env : stable R (check_requirements env).
Proof. unfold check_requirements, is_file. stable_tac. Qed.

Lemma stable_extract_modlist env : stable R (extract_modlist env).
Proof. unfold extract_modlist, ZipFile. stable_tac. Qed.

Lemma stable_check_modlist env : stable R (check_modlist env).
Proof. unfold check_modlist, modlist_path_is_file. stable_tac. Qed.

Lemma stable_parse_modlist env : stable R (parse_modlist env).
Proof. unfold parse_modlist, load. stable_tac. Qed.

Lemma stable_validate_loop archives : ∀ i output, stable R (validate_loop i archives output).
Proof.
  induction archives as [|e rest IH]; intros i output; simpl; stable_tac.
Qed.
End Phases.

Section Writes.
Context `{PyRuntime}.
Context (R : relation world) `{!WorldRel R}.

Lemma stable_write_entries env output :
  (∀ text, stable R (write (OUTPUT env) text)) → stable R (write_entries env output).
Proof. intros Hw. induction output as [|entry rest IH]; simpl; stable_tac. Qed.

Lemma stable_write_output env output :
  writes_allowed R env (OUTPUT env) → stable R (write_output env output).
Proof.
  intros [Ho Hw]. unfold write_output. stable_tac. by apply stable_write_entries.
Qed.

Lemma stable_read_archives env data :
  writes_allowed R env TEMP → stable R (read_archives env data).
Proof. intros [Ho Hw]. unfold read_archives, dump_modlist, get_archives. stable_tac. Qed.

Lemma stable_up_to_load env : stable R (up_to_load env).
Proof.
  unfold up_to_load.
  pose proof (stable_check_requirements R env). pose proof (stable_extract_modlist R env).
  pose proof (stable_check_modlist R env). stable_tac.
Qed.

Lemma stable_up_to_validation env :
  writes_allowed R env TEMP → stable R (up_to_validation env).
Proof.
  intros Ht. unfold up_to_validation.
  pose proof (stable_up_to_load env). pose proof (stable_parse_modlist R env).
  pose proof (λ data, stable_read_archives env data Ht). stable_tac.
Qed.

Lemma stable_validate_and_write env archives :
  writes_allowed R env (OUTPUT env) → stable R (validate_and_write env archives).
Proof.
  intros Ho. unfold validate_and_write.
  pose proof (λ i output, stable_validate_loop R archives i output).
  pose proof (λ output, stable_write_output env output Ho). stable_tac.
Qed.

Lemma stable_main env :
  writes_allowed R env TEMP → writes_allowed R env (OUTPUT env) → stable R (main env).
Proof.
  intros Ht Ho. unfold main.
  apply stable_bind; [apply _|apply stable_check_requirements; apply _|intros _].
  apply stable_with_TemporaryDirectory; [apply _|]. unfold in_tempdir.
  pose proof (stable_extract_modlist R env). pose proof (stable_check_modlist R env).
  pose proof (stable_parse_modlist R env).
  pose proof (λ data, stable_read_archives env data Ht).
  pose proof (λ output, stable_write_output env output Ho).
  stable_tac. by apply stable_validate_loop.
Qed.
End Writes.

(** *** The relations used below *)

#[local] Instance same_fs_rel : WorldRel same_fs.
Proof.
  split.
  - split; [by intros w|]. intros w1 w2 w3. unfold same_fs. congruence.
  - by intros w lines.
  - by intros w t.
Qed.

#[local] Instance same_at_rel p : WorldRel (same_at p).
Proof.
  split.
  - split; [by intros w|]. intros w1 w2 w3. unfold same_at. congruence.
  - by intros w lines.
  - by intros w t.
Qed.

#[local] Instance same_kind_rel p : WorldRel (same_kind p).
Proof.
  split.
  - split; [by intros w|]. intros w1 w2 w3. unfold same_kind. congruence.
  - by intros w lines.
  - by intros w t.
Qed.

Lemma writes_allowed_same_at env p q : p ≠ q → writes_allowed (same_at q) env p.
Proof.
  intros Hpq. split; [|intros text]; intros w; unfold same_at, open_w, write.
  - destruct (fs w !! p) as [[c| |c]|]; destruct (may_write env p); simpl;
      try done; by rewrite lookup_insert_ne.
  - destruct (fs w !! p) as [[c| |c]|]; simpl; try done; by rewrite lookup_insert_ne.
Qed.

Lemma writes_allowed_same_kind env p q : writes_allowed (same_kind q) env p.
Proof.
  split; [|intros text]; intros w; unfold same_kind, open_w, write.
  - destruct (fs w !! p) as [[c| |c]|] eqn:Hp; destruct (may_write env p); simpl;
      try done; destruct (decide (p = q)) as [->|Hne];
      rewrite ?lookup_insert_eq, ?Hp; try done; by rewrite lookup_insert_ne.
  - destruct (fs w !! p) as [[c| |c]|] eqn:Hp; simpl; try done;
      destruct (decide (p = q)) as [->|Hne];
      rewrite ?lookup_insert_eq, ?Hp; try done; by rewrite lookup_insert_ne.
Qed.

(** ** How far a run gets *)

Lemma string_app_nil_r (s : string) : (s +:+ "")%string = s.
Proof.
  induction s as [|a s IH]; [done|].
  change (String a (s +:+ "") = String a s). by rewrite IH.
Qed.

Lemma string_app_assoc (s1 s2 s3 : string) :
  ((s1 +:+ s2) +:+ s3)%string = (s1 +:+ s2 +:+ s3)%string.
Proof.
  induction s1 as [|a s1 IH]; [done|].
  change (String a ((s1 +:+ s2) +:+ s3) = String a (s1 +:+ s2 +:+ s3)). by rewrite IH.
Qed.

Lemma set_fs_insert_insert p n1 n2 w :
  set_fs (insert p n2) (set_fs (insert p n1) w) = set_fs (insert p n2) w.
Proof. destruct w; unfold set_fs; simpl. by rewrite insert_insert_eq. Qed.

Section Run.
Context `{PyRuntime}.

Ltac run_with E :=
  unfold mbind, M_bind, bind in *;
  repeat match goal with
         | _ : context [match ?m E ?w with _ => _ end] |- _ =>
             destruct (m E w) as [[?|?|?] ?] eqn:?; simplify_eq
         end.

Lemma main_after_checks env w w1 :
  check_requirements env w = (Ret tt, w1) →
  main env w = cleanup (in_tempdir env (set_tempd (Some None) w1)).
Proof.
  intros Hc. unfold main, with_TemporaryDirectory, cleanup.
  unfold mbind at 1, M_bind at 1, bind at 1. rewrite Hc.
  by destruct (in_tempdir env _).
Qed.

Lemma main_after_load env w w1 :
  up_to_load env w = (Ret tt, w1) →
  main env w = cleanup (after_load env w1).
Proof.
  intros Hu. unfold up_to_load in Hu.
  unfold mbind at 1, M_bind at 1, bind at 1 in Hu.
  destruct (check_requirements env w) as [[[]|?|?] w0] eqn:Hc; simplify_eq.
  rewrite (main_after_checks _ _ _ Hc). unfold in_tempdir, after_load, validate_and_write.
  unfold mkdtemp in Hu. unfold mbind, M_bind, bind in *.
  destruct (extract_modlist env _) as [[[]|?|?] ?]; simplify_eq.
  destruct (check_modlist env _) as [[[]|?|?] ?]; simplify_eq.
  done.
Qed.

Lemma main_after_validation env w archives w2 :
  up_to_validation env w = (Ret archives, w2) →
  main env w = cleanup (validate_and_write env archives w2).
Proof.
  intros Hu. unfold up_to_validation in Hu.
  unfold mbind at 1, M_bind at 1, bind at 1 in Hu.
  destruct (up_to_load env w) as [[[]|?|?] w1] eqn:Hl; simplify_eq.
  rewrite (main_after_load _ _ _ Hl). unfold after_load.
  unfold mbind, M_bind, bind in *.
  destruct (parse_modlist env w1) as [[data|?|?] ?]; simplify_eq.
  by rewrite Hu.
Qed.

(** *** Writing the output file *)

Lemma write_entries_file env output w c :
  fs w !! OUTPUT env = Some (File c) →
  write_entries env output w =
  (Ret tt, set_fs (insert (OUTPUT env) (File (c +:+ blocks env output))) w).
Proof.
  revert w c. induction output as [|entry rest IH]; intros w c Hc.
  - unfold blocks. simpl. rewrite string_app_nil_r. unfold mret, M_ret, ret.
    destruct w as [f t o]; unfold set_fs; simpl in *. by rewrite insert_id.
  - simpl. unfold mbind, M_bind, bind, write. rewrite Hc.
    erewrite IH; [|unfold set_fs; simpl; by rewrite lookup_insert_eq].
    rewrite set_fs_insert_insert, string_app_assoc. do 4 f_equal.
    unfold blocks. simpl. destruct rest; [|done].
    simpl. by rewrite string_app_nil_r.
Qed.

Lemma write_output_regular env output w :
  kind (fs w !! OUTPUT env) = Regular →
  may_write env (OUTPUT env) = true →
  write_output env output w =
  (Ret tt, set_fs (insert (OUTPUT env) (File (blocks env output))) w).
Proof.
  intros Hk Hm. unfold write_output, mbind, M_bind, bind, open_w. rewrite Hm.
  destruct (fs w !! OUTPUT env) as [[c| |c]|]; try done.
  all: erewrite write_entries_file; [|unfold set_fs; simpl; by rewrite lookup_insert_eq].
  all: by rewrite set_fs_insert_insert.
Qed.

Lemma write_output_refused env output w :
  kind (fs w !! OUTPUT env) = Directory ∨ may_write env (OUTPUT env) = false →
  ∃ k msg, write_output env output w = (Raise k msg, w).
Proof.
  intros Hk. unfold write_output, mbind, M_bind, bind, open_w.
  destruct (fs w !! OUTPUT env) as [[c| |c]|]; destruct (may_write env _);
    destruct Hk; try done; eauto.
Qed.
End Run.

Section Completion.
Context `{PyRuntime}.

Lemma up_to_validation_kind env w archives w2 p :
  up_to_validation env w = (Ret archives, w2) →
  kind (fs w2 !! p) = kind (fs w !! p).
Proof.
  intros Hu.
  pose proof (stable_up_to_validation (same_kind p) env (writes_allowed_same_kind _ _ _) w) as Hk.
  by rewrite Hu in Hk.
Qed.

(** A run that reaches the loop ends normally when every entry gets a
    verdict and the output file can be opened. *)
Lemma run_completes env w archives w2 :
  up_to_validation env w = (Ret archives, w2) →
  kind (fs w !! OUTPUT env) = Regular →
  Forall (fun e => decided e = true) archives →
  may_write env (OUTPUT env) = true →
  main env w =
  (Ret tt,
   World (<[OUTPUT env := File (blocks env (omap accepted archives))]> (fs w2)) None
     (stdout w2 ++ loop_log 0 archives)).
Proof.
  intros Hu Hk Hd Hm. rewrite (main_after_validation _ _ _ _ Hu).
  unfold validate_and_write, mbind, M_bind, bind.
  rewrite (validate_loop_decided _ Hd). simpl app.
  rewrite write_output_regular; [done| |done].
  simpl. by rewrite (up_to_validation_kind _ _ _ _ _ Hu).
Qed.

(** Otherwise it ends with an exception, and the output path is untouched. *)
Lemma run_aborts env w archives w2 :
  up_to_validation env w = (Ret archives, w2) →
  ¬ (Forall (fun e => decided e = true) archives ∧ may_write env (OUTPUT env) = true) →
  (∃ k msg, fst (main env w) = Raise k msg) ∧ fs (snd (main env w)) = fs w2.
Proof.
  intros Hu Hn. rewrite (main_after_validation _ _ _ _ Hu).
  unfold validate_and_write, mbind, M_bind, bind, cleanup.
  pose proof (validate_loop_outcome archives 0 [] w2) as Ho.
  pose proof (validate_loop_fs archives 0 [] w2) as [Hfs _].
  destruct (validate_loop 0 archives [] w2) as [[out|k msg|code] w3]; simpl in *.
  - destruct (write_output_refused env out w3) as (k & msg & ->); [|by eauto].
    right. destruct (may_write env (OUTPUT env)); [|done]. by destruct Hn.
  - eauto.
  - done.
Qed.

Lemma omap_accepted_blocks env archives :
  omap (fun e => block (use_mods env) <$> accepted e) archives =
  map (block (use_mods env)) (omap accepted archives).
Proof.
  induction archives as [|e rest IH]; [done|]. simpl.
  destruct (accepted e); simpl; [f_equal|]; exact IH.
Qed.

Lemma omap_length_filter {A B} (f : A → option B) (l : list A) :
  length (omap f l) = length (filter (fun x => is_Some (f x)) l).
Proof.
  induction l as [|x l IH]; [done|]. rewrite filter_cons. simpl.
  destruct (f x) eqn:Hf.
  - rewrite decide_True; [simpl; f_equal; exact IH|by eexists].
  - rewrite decide_False; [exact IH|]. by intros [? ?].
Qed.

Lemma omap_length_le {A B} (f : A → option B) (l : list A) :
  (length (omap f l) ≤ length l)%nat.
Proof. rewrite omap_length_filter. apply length_filter. Qed.
End Completion.

(** ** What a run that reaches the loop has read *)

Section Reached.
Context `{PyRuntime}.

Lemma utf8_chars_nonempty s : s ≠ EmptyString → utf8_chars s ≠ [].
Proof.
  destruct s as [|c rest]; [done|]. intros _. simpl.
  destruct rest as [|c' rest']; [done|].
  destruct (is_continuation c'); [|done]. by destruct (utf8_chars _).
Qed.

Lemma elements_nonempty v items :
  truthy v = true → elements v = Some items → items ≠ [].
Proof.
  destruct v as [| | | |s|l|d]; simpl; try done; intros Ht [= <-].
  - intros Hnil%fmap_nil_inv. revert Hnil. apply utf8_chars_nonempty.
    intros ->. done.
  - by destruct l.
  - by destruct d.
Qed.

Lemma parse_modlist_ret env w data w' :
  parse_modlist env w = (Ret data, w') →
  json_load env = Loaded data ∧ truthy data = true.
Proof.
  unfold parse_modlist, load, try_except, error, info, when.
  destruct (json_load env) as [d|k msg]; step.
  - destruct (truthy d) eqn:Ht; step; intros; by simplify_eq.
  - destruct k; step; intros; simplify_eq.
Qed.

Lemma read_archives_ret env data w archives w' :
  read_archives env data w = (Ret archives, w') →
  ∃ members v,
    data = JDict members ∧ dict_get "Archives" members = Some v
    ∧ truthy v = true ∧ elements v = Some archives.
Proof.
  unfold read_archives. unfold mbind at 1, M_bind at 1, bind at 1.
  destruct (dump_modlist env data w) as [[[]|?|?] w2]; [|done|done].
  unfold get_archives. destruct data as [| | | | | |members]; try done.
  unfold py_get, error, info, when, py_iter. step.
  destruct (dict_get "Archives" members) as [v|] eqn:Hg; [|done]. simpl.
  destruct (is_None v) eqn:Hn; [done|]. step.
  destruct (truthy v) eqn:Ht; [|done]. step.
  destruct v; try done; step; intros; simplify_eq; eauto 10.
Qed.

Lemma up_to_validation_ret env w archives w2 :
  up_to_validation env w = (Ret archives, w2) →
  ∃ members v,
    json_load env = Loaded (JDict members) ∧ dict_get "Archives" members = Some v
    ∧ truthy v = true ∧ elements v = Some archives.
Proof.
  unfold up_to_validation. unfold mbind at 1, M_bind at 1, bind at 1.
  destruct (up_to_load env w) as [[[]|?|?] w1]; [|done|done].
  unfold mbind at 1, M_bind at 1, bind at 1.
  destruct (parse_modlist env w1) as [[data|?|?] w1'] eqn:Hp; [|done|done].
  apply parse_modlist_ret in Hp as [Hl Ht].
  intros (members & v & -> & ?)%read_archives_ret. eauto.
Qed.
End Reached.

(** ** The output of a run *)

Section Output.
Context `{PyRuntime}.

Lemma exit_status_zero_iff env w archives w2 :
  up_to_validation env w = (Ret archives, w2) →
  fs w !! OUTPUT env = None →
  exit_status (fst (main env w)) = 0 ↔
  Forall (fun e => decided e = true) archives ∧ may_write env (OUTPUT env) = true.
Proof.
  intros Hu Hnone. split.
  - intros Hex.
    destruct (decide (Forall (fun e => decided e = true) archives
                      ∧ may_write env (OUTPUT env) = true)) as [?|Hn]; [done|].
    destruct (run_aborts _ _ _ _ Hu Hn) as [(k & msg & Hr) _].
    by rewrite Hr in Hex.
  - intros [Hd Hm]. rewrite (run_completes _ _ _ _ Hu); [done| |done|done].
    by rewrite Hnone.
Qed.

Lemma output_of_run env w archives w2 :
  up_to_validation env w = (Ret archives, w2) →
  fs w !! OUTPUT env = None →
  exit_status (fst (main env w)) = 0 →
  fs (snd (main env w)) !! OUTPUT env = Some (File (blocks env (omap accepted archives))).
Proof.
  intros Hu Hnone [Hd Hm]%(exit_status_zero_iff _ _ _ _ Hu Hnone).
  rewrite (run_completes _ _ _ _ Hu); [|by rewrite Hnone|done|done].
  simpl. by rewrite lookup_insert_eq.
Qed.

(** Runs that get to write. When the loop is reached with a list of N
    entries, the run writes the output file exactly when every entry
    receives a verdict and the output path can be opened; the file then
    holds one block for every entry that passes validation, hence at most N
    blocks, in the order of their entries in the list: nothing is sorted,
    nothing is dropped as a duplicate. *)
Theorem output_blocks_in_order env w archives w2 :
  up_to_validation env w = (Ret archives, w2) →
  fs w !! OUTPUT env = None →
  let written := omap (fun e => block (use_mods env) <$> accepted e) archives in
  (exit_status (fst (main env w)) = 0 ↔
     Forall (fun e => decided e = true) archives ∧ may_write env (OUTPUT env) = true)
  ∧ (exit_status (fst (main env w)) = 0 →
       fs (snd (main env w)) !! OUTPUT env = Some (File (String.concat "" written)))
  ∧ length written = length (filter (fun e => is_Some (accepted e)) archives)
  ∧ (length written ≤ length archives)%nat.
Proof.
  intros Hu Hnone written. split; [by eapply exit_status_zero_iff|].
  split; [|split].
  - intros Hex. rewrite (output_of_run _ _ _ _ Hu Hnone Hex).
    unfold written, blocks. by rewrite omap_accepted_blocks.
  - unfold written. rewrite omap_length_filter. f_equal.
    apply list_filter_iff. intros e. by rewrite <- !not_eq_None_Some, fmap_None.
  - apply omap_length_le.
Qed.

(** C2. For every accepted record the block written to the output file
    carries the file-level URL
    [https://www.nexusmods.com/{game}/mods/{mod_id}?tab=files&file_id={file_id}]
    when the flag is off, and the mod-level URL
    [https://www.nexusmods.com/{game}/mods/{mod_id}] when it is on. *)
Theorem url_written env w archives w2 :
  up_to_validation env w = (Ret archives, w2) →
  fs w !! OUTPUT env = None →
  exit_status (fst (main env w)) = 0 →
  fs (snd (main env w)) !! OUTPUT env =
  Some (File (String.concat ""
    (map (fun r =>
            "## '" +:+ py_str (name r) +:+ "' by " +:+ py_str (author r) +:+ LF +:+
            (if use_mods env then
               "https://www.nexusmods.com/" +:+ py_str (game r) +:+ "/mods/" +:+ py_str (mod_id r)
             else
               "https://www.nexusmods.com/" +:+ py_str (game r) +:+ "/mods/" +:+ py_str (mod_id r)
               +:+ "?tab=files&file_id=" +:+ py_str (file_id r))
            +:+ LF +:+ LF)
       (omap accepted archives)))).
Proof.
  intros Hu Hnone Hex. rewrite (output_of_run _ _ _ _ Hu Hnone Hex).
  unfold blocks, block, url, mod_url. do 3 f_equal.
  apply map_ext. intros r. by destruct (use_mods env).
Qed.

(** When every entry of the list is rejected by one of the two handlers
    of the loop, the run ends normally, with exit status 0, and creates an
    output file that holds no block. *)
Theorem all_rejected_empty_output env w archives w2 :
  up_to_validation env w = (Ret archives, w2) →
  fs w !! OUTPUT env = None →
  may_write env (OUTPUT env) = true →
  Forall (fun e => is_Some (rejected e)) archives →
  archives ≠ []
  ∧ fst (main env w) = Ret tt
  ∧ exit_status (fst (main env w)) = 0
  ∧ fs (snd (main env w)) !! OUTPUT env = Some (File "").
Proof.
  intros Hu Hnone Hm Hrej.
  assert (Forall (fun e => decided e = true) archives) as Hd.
  { eapply Forall_impl; [exact Hrej|]. intros e [msg Hr]. unfold decided.
    rewrite Hr. by destruct (accepted e). }
  assert (omap accepted archives = []) as Hacc.
  { clear -Hrej. induction Hrej as [|e rest [msg Hr] _ IH]; [done|]. simpl.
    unfold rejected, accepted in *. destruct (verdict e); [done|exact IH|done]. }
  split.
  - destruct (up_to_validation_ret _ _ _ _ Hu) as (members & v & _ & _ & Ht & Hel).
    by eapply elements_nonempty.
  - rewrite (run_completes _ _ _ _ Hu); [|by rewrite Hnone|done|done].
    rewrite Hacc. simpl. by rewrite lookup_insert_eq.
Qed.
End Output.


(** ** What the constructor decides *)

Section Acceptance.
Context `{PyRuntime}.

Lemma missing_field state keys :
  existsb is_None (map (field state) keys) = negb (forallb (field_present state) keys).
Proof.
  induction keys as [|k keys IH]; [done|]. simpl. rewrite IH, negb_andb.
  f_equal. unfold field, field_present.
  destruct (dict_get k state) as [v|]; [|done]. simpl. by rewrite negb_involutive.
Qed.

Lemma verdict_state e state etype :
  state_of e = Some state →
  dict_get "$type" state = Some etype →
  truthy etype = true →
  verdict e = verdict_at_type_test state etype.
Proof.
  intros Hs Ht Htr. unfold state_of in Hs.
  destruct e as [| | | | | |members]; try done.
  destruct (dict_get "State" members) as [[| | | | | |st]|] eqn:Hs'; simplify_eq.
  unfold verdict, verdict_at_type_test, ModInfo_init. step. rewrite Hs'. simpl.
  destruct state as [|kv state']; [done|]. step. rewrite Ht. simpl. rewrite Htr. step.
  pose proof (missing_field (kv :: state') REQUIRED) as Hmiss.
  unfold REQUIRED, field in Hmiss. simpl map in Hmiss.
  destruct etype; try done; step.
  all: match goal with |- context [negb ?b] => destruct b end; step; [|done].
  all: unfold field; simpl in Hmiss; rewrite Hmiss.
  all: match goal with |- context [negb ?b] => by destruct b end.
Qed.

(** Entries that do not get as far as the test of the type tag. *)
Lemma verdict_malformed e :
  (∀ state etype,
     state_of e = Some state → dict_get "$type" state = Some etype →
     truthy etype = false) →
  ∃ msg, verdict e = Raise AttributeError msg.
Proof.
  intros Hno. unfold verdict, ModInfo_init.
  destruct e as [| | | | | |members]; step; eauto.
  destruct (dict_get "State" members) as [state|] eqn:Hs; simpl; [|eauto].
  destruct (truthy state) eqn:Hts; step; [|eauto].
  destruct state as [| | | | | |sm]; step; eauto.
  destruct (dict_get "$type" sm) as [etype|] eqn:Ht; simpl; [|eauto].
  rewrite (Hno sm etype); [step; eauto| |done].
  unfold state_of. by rewrite Hs.
Qed.

Lemma verdict_cases e :
  (∃ state etype,
     state_of e = Some state ∧ dict_get "$type" state = Some etype
     ∧ truthy etype = true ∧ verdict e = verdict_at_type_test state etype)
  ∨ (meets has_marker e = false ∧ meets has_marker_substring e = false
     ∧ type_not_container e = false
     ∧ ∃ msg, verdict e = Raise AttributeError msg).
Proof.
  destruct (state_of e) as [state|] eqn:Hs.
  - destruct (dict_get "$type" state) as [etype|] eqn:Ht.
    + destruct (truthy etype) eqn:Htr.
      * left. exists state, etype. repeat split; try done. by apply verdict_state.
      * right. unfold meets, type_not_container. rewrite Hs, Ht, Htr, !andb_false_r.
        repeat split; try done. apply verdict_malformed. intros; by simplify_eq.
    + right. unfold meets, type_not_container. rewrite Hs, Ht, !andb_false_r.
      repeat split; try done. apply verdict_malformed. intros; by simplify_eq.
  - right. unfold meets, type_not_container. rewrite Hs.
    repeat split; try done. apply verdict_malformed. intros; by simplify_eq.
Qed.

(** The entries without a verdict are those whose type tag is a truthy
    number or boolean. *)
Lemma undecided_iff e : decided e = false ↔ type_not_container e = true.
Proof.
  unfold decided, accepted, rejected.
  destruct (verdict_cases e) as
    [(state & etype & Hs & Ht & Htr & Hv)|(_ & _ & Hn & msg & Hv)].
  - unfold type_not_container. rewrite Hs, Ht, Htr, Hv. unfold verdict_at_type_test.
    set (ok := forallb (field_present state) REQUIRED).
    destruct etype; simpl; try done.
    all: destruct ok; try destruct (str_contains _ _); try destruct (existsb _ _); done.
  - by rewrite Hn, Hv.
Qed.

Lemma rejected_continues e msg i rest output w :
  rejected e = Some msg →
  validate_loop i (e :: rest) output w =
  validate_loop (S i) rest output
    (add_stdout
       (printed e ++ [error_line ("Error for entry " +:+ int_str (Z.of_nat i) +:+ ": " +:+ msg)])
       w).
Proof.
  intros Hr. rewrite validate_loop_cons. unfold entry_log. rewrite Hr.
  unfold rejected in Hr. by destruct (verdict e).
Qed.

(** C1, as the code has it. The constructor returns a record exactly for
    the entries with a truthy State object whose truthy type tag holds the
    marker (as a substring of a text, an element of a list or a key of an
    object) and whose five required fields are present and not null. An
    entry that fails these conditions, unless its type tag is a truthy
    number or boolean, makes the constructor raise one of the two classes
    the loop catches; when the lines printed for it can be encoded, the loop
    prints one warning for it, leaves the list of records as it is and goes
    on with the next entry. *)
Theorem accepted_iff_meets e :
  (is_Some (accepted e) ↔ meets has_marker e = true)
  ∧ (meets has_marker e = false → type_not_container e = false →
     ∃ msg,
       rejected e = Some msg
       ∧ ∀ i rest output w,
           Forall (fun line => encodable line = true)
             (printed e
              ++ [error_line ("Error for entry " +:+ int_str (Z.of_nat i) +:+ ": " +:+ msg)]) →
           validate_loop i (e :: rest) output w =
           validate_loop (S i) rest output
             (add_stdout
                (printed e
                 ++ [error_line ("Error for entry " +:+ int_str (Z.of_nat i) +:+ ": " +:+ msg)])
                w)).
Proof.
  destruct (verdict_cases e) as
    [(state & etype & Hs & Ht & Htr & Hv)|(Hm & _ & Hn & msg & Hv)].
  - assert (truthy (JDict state) = true) as Hst by (by destruct state).
    split.
    + unfold accepted, meets. rewrite Hs, Ht, Hst, Htr, Hv. unfold verdict_at_type_test.
      set (ok := forallb (field_present state) REQUIRED).
      destruct etype; simpl; try (split; [by intros [? ?]|done]).
      all: match goal with |- context [if ?b then _ else _] => destruct b end; simpl;
        try (split; [by intros [? ?]|done]).
      all: destruct ok; split; try done; try by intros [? ?]. all: by eexists.
    + unfold meets, type_not_container. rewrite Hs, Ht, Hst, Htr. intros Hm Hn.
      assert (∃ msg, rejected e = Some msg) as [msg Hr].
      { unfold rejected. rewrite Hv. unfold verdict_at_type_test.
        set (ok := forallb (field_present state) REQUIRED) in *.
        destruct etype; simpl in *; try done.
        all: match goal with |- context [if ?b then _ else _] => destruct b end; simpl in *;
          eauto.
        all: destruct ok; simpl in *; try done; eauto. }
      exists msg. split; [done|]. intros i rest output w _. by apply rejected_continues.
  - split.
    + rewrite Hm. unfold accepted. rewrite Hv. split; [by intros [? ?]|done].
    + intros _ _. exists msg. assert (rejected e = Some msg) as Hr.
      { unfold rejected. by rewrite Hv. }
      split; [done|]. intros i rest output w _. by apply rejected_continues.
Qed.
End Acceptance.

(** ** Required fields *)

Section Fields.
Context `{PyRuntime}.






End Fields.

(** ** Exit codes *)

Section ExitCodes.
Context `{PyRuntime}.

Lemma exits_bind {A B} (m : M A) (k : A → M B) :
  exits_with_one m → (∀ a, exits_with_one (k a)) → exits_with_one (m ≫= k).
Proof.
  intros Hm Hk w code. unfold mbind, M_bind, bind. specialize (Hm w).
  destruct (m w) as [[a|c msg|c] w1]; simpl in *; [apply Hk|done|].
  intros [= <-]. by apply Hm.
Qed.

Lemma exits_never {A} (m : M A) :
  (∀ w code, fst (m w) ≠ SystemExit code) → exits_with_one m.
Proof. intros Hm w code Hx. by apply Hm in Hx. Qed.

Lemma exits_ret {A} (a : A) : exits_with_one (mret a).
Proof. by apply exits_never. Qed.

Lemma exits_raise {A} k msg : exits_with_one (@raise A k msg).
Proof. by apply exits_never. Qed.

Lemma exits_print line : exits_with_one (print line).
Proof. by apply exits_never. Qed.

Lemma exits_error message do_exit : exits_with_one (error message do_exit).
Proof.
  unfold error. apply exits_bind; [apply exits_print|]. intros _.
  destruct do_exit; [|by apply exits_never]. by intros w code [= <-].
Qed.

Lemma exits_when b m : exits_with_one m → exits_with_one (when b m).
Proof. destruct b; [done|]. intros _. by apply exits_never. Qed.

Lemma exits_try_except {A} (body : M A) handler :
  exits_with_one body →
  (∀ k msg h, handler k msg = Some h → exits_with_one h) →
  exits_with_one (try_except body handler).
Proof.
  intros Hb Hh w code. unfold try_except. specialize (Hb w).
  destruct (body w) as [[a|c msg|c] w1]; simpl in *; [done| |exact (Hb code)].
  destruct (handler c msg) as [h|] eqn:Hc; [|done]. by eapply Hh.
Qed.

Lemma exits_py_get v key : exits_with_one (py_get v key).
Proof. apply exits_never. by destruct v. Qed.

Lemma exits_py_in needle v : exits_with_one (py_in needle v).
Proof. apply exits_never. by destruct v. Qed.

Lemma exits_py_len v : exits_with_one (py_len v).
Proof. apply exits_never. by destruct v. Qed.

Lemma exits_py_iter v : exits_with_one (py_iter v).
Proof. apply exits_never. unfold py_iter. by destruct (elements v). Qed.

Lemma exits_decode_ascii bytes : exits_with_one (decode_ascii bytes).
Proof. apply exits_never. unfold decode_ascii. by destruct (is_ascii bytes). Qed.

Lemma exits_open_w env p : exits_with_one (open_w env p).
Proof.
  apply exits_never. intros w code. unfold open_w.
  by destruct (fs w !! p) as [[c| |c]|], (may_write env p).
Qed.

Lemma exits_write p text : exits_with_one (write p text).
Proof.
  apply exits_never. intros w code. unfold write.
  by destruct (fs w !! p) as [[c| |c]|].
Qed.

Lemma exits_mkdtemp : exits_with_one mkdtemp.
Proof. by apply exits_never. Qed.

Lemma exits_zip_extract m : exits_with_one (zip_extract m).
Proof. apply exits_never. unfold zip_extract. by destruct (payload m). Qed.

Lemma exits_validate_loop i archives output : exits_with_one (validate_loop i archives output).
Proof.
  apply exits_never. intros w code Hx.
  pose proof (validate_loop_outcome archives i output w) as Ho. by rewrite Hx in Ho.
Qed.

Lemma exits_with_TemporaryDirectory {A} (body : M A) :
  exits_with_one body → exits_with_one (with_TemporaryDirectory body).
Proof.
  intros Hb w code. unfold with_TemporaryDirectory.
  specialize (Hb (set_tempd (Some None) w) code). by destruct (body _).
Qed.
End ExitCodes.

Create HintDb exits.
#[export] Hint Resolve exits_ret exits_raise exits_print exits_error exits_when exits_py_get
  exits_py_in exits_py_len exits_py_iter exits_decode_ascii exits_open_w exits_write
  exits_mkdtemp exits_zip_extract exits_validate_loop : exits.

Ltac exits_tac :=
  repeat first
    [ solve [eauto with exits]
    | apply exits_bind; [|intros ?]
    | apply exits_when
    | apply exits_try_except; [|intros ? ? ? ?]
    | apply exits_never; done
    | match goal with
      | |- exits_with_one (match ?x with _ => _ end) => destruct x
      | H : context [match ?k with _ => _ end] |- _ => destruct k; simplify_eq
      end ].

Section ExitCodesOfRun.
Context `{PyRuntime}.

Lemma exits_write_entries env output : exits_with_one (write_entries env output).
Proof. induction output as [|entry rest IH]; simpl; exits_tac. Qed.

Lemma exits_in_tempdir env : exits_with_one (in_tempdir env).
Proof.
  pose proof (exits_write_entries env).
  unfold in_tempdir, extract_modlist, ZipFile, check_modlist, modlist_path_is_file,
    parse_modlist, load, read_archives, dump_modlist, get_archives, write_output, info.
  exits_tac.
Qed.

Lemma exits_main env : exits_with_one (main env).
Proof.
  unfold main. apply exits_bind.
  - unfold check_requirements, is_file, info. exits_tac.
  - intros _. apply exits_with_TemporaryDirectory, exits_in_tempdir.
Qed.

(** The exit status of a run is 0 when the script runs to its end and 1
    otherwise. *)
Lemma exit_status_main env w :
  match fst (main env w) with
  | Ret _ => exit_status (fst (main env w)) = 0
  | _ => exit_status (fst (main env w)) = 1
  end.
Proof.
  pose proof (exits_main env w) as Hx.
  destruct (fst (main env w)); simpl; [done|done|]. by apply Hx.
Qed.
End ExitCodesOfRun.

(** ** Looking the manifest up in the archive *)

Section Lookup.
Context `{PyRuntime}.

Lemma check_requirements_fs env w : fs (snd (check_requirements env w)) = fs w.
Proof. apply (stable_check_requirements same_fs env w). Qed.

Lemma lookup_fails env w w1 members :
  check_requirements env w = (Ret tt, w1) →
  filelist env = Some members →
  let found := filter (fun x => filename x = MODLIST_FILENAME) members in
  (found = [] →
     main env w =
     (SystemExit 1,
      World (fs w) None
        (stdout w1 ++ [error_line "The input file does not contain a modlist file"])))
  ∧ ((2 ≤ length found)%nat →
     main env w =
     (SystemExit 1,
      World (fs w) None (stdout w1 ++ [error_line "Got more than one modlist file"]))).
Proof.
  intros Hc Hfl found.
  pose proof (check_requirements_fs env w) as Hfs. rewrite Hc in Hfs. simpl in Hfs.
  rewrite (main_after_checks _ _ _ Hc).
  unfold in_tempdir, extract_modlist, ZipFile. rewrite Hfl. subst found.
  unfold cleanup, error. step.
  destruct (filter _ members) as [|m1 [|m2 rest]]; simpl.
  - split; [intros _|lia]. unfold set_tempd, add_stdout. simpl. by rewrite Hfs.
  - split; [done|lia].
  - split; [done|intros _]. unfold set_tempd, add_stdout. simpl. by rewrite Hfs.
Qed.

(** C6. The manifest is looked up by exact, case-sensitive equality of a
    member's name with ["modlist"]. With no such member the run ends with
    exit status 1 and the message of the missing manifest, with two or more
    with exit status 1 and the message of the ambiguous one. In both cases
    nothing has been written, and the result is the same whatever the
    manifest would have been found to hold: it is not parsed. *)
Theorem manifest_lookup_fatal env w w1 members :
  check_requirements env w = (Ret tt, w1) →
  filelist env = Some members →
  let found := filter (fun x => filename x = "modlist") members in
  (found = [] →
     main env w =
     (SystemExit 1,
      World (fs w) None
        (stdout w1 ++ [error_line "The input file does not contain a modlist file"])))
  ∧ ((2 ≤ length found)%nat →
     main env w =
     (SystemExit 1,
      World (fs w) None (stdout w1 ++ [error_line "Got more than one modlist file"])))
  ∧ (found = [] ∨ (2 ≤ length found)%nat →
     exit_status (fst (main env w)) = 1
     ∧ ∀ described parsed, main (with_manifest env described parsed) w = main env w).
Proof.
  intros Hc Hfl found.
  destruct (lookup_fails env w w1 members Hc Hfl) as [H0 H2].
  split; [exact H0|]. split; [exact H2|].
  intros Hcount. split.
  - destruct Hcount as [Hn|Hn]; [rewrite (H0 Hn)|rewrite (H2 Hn)]; done.
  - intros described parsed.
    destruct (lookup_fails (with_manifest env described parsed) w w1 members Hc Hfl)
      as [H0' H2'].
    destruct Hcount as [Hn|Hn]; [rewrite (H0 Hn), (H0' Hn)|rewrite (H2 Hn), (H2' Hn)]; done.
Qed.
End Lookup.

(** ** Fatal conditions *)

Section Fatal.
Context `{PyRuntime}.

(** A run that does not reach the loop ends the way its prefix ends. *)
Lemma main_stops env w o w2 :
  up_to_validation env w = (o, w2) →
  match o with
  | Ret _ => True
  | Raise k msg => fst (main env w) = Raise k msg
  | SystemExit code => fst (main env w) = SystemExit code
  end.
Proof.
  unfold up_to_validation, up_to_load, main, with_TemporaryDirectory, in_tempdir, mkdtemp.
  unfold mbind, M_bind, bind.
  destruct (check_requirements env w) as [[[]|?|?] w0]; simpl; [|by intros [= <- <-]..].
  destruct (extract_modlist env _) as [[[]|?|?] w0']; simpl; [|by intros [= <- <-]..].
  destruct (check_modlist env _) as [[[]|?|?] w0'']; simpl; [|by intros [= <- <-]..].
  destruct (parse_modlist env _) as [[data|?|?] w1]; simpl; [|by intros [= <- <-]..].
  destruct (read_archives env data _) as [[archives|?|?] w1']; simpl; by intros [= <- <-].
Qed.

Lemma main_ret_reached env w :
  fst (main env w) = Ret tt → ∃ archives w2, up_to_validation env w = (Ret archives, w2).
Proof.
  intros Hr. destruct (up_to_validation env w) as [[archives|k msg|code] w2] eqn:Hu.
  - eauto.
  - apply main_stops in Hu. congruence.
  - apply main_stops in Hu. congruence.
Qed.

Lemma not_reached_fatal env w :
  (∀ archives w2, up_to_validation env w ≠ (Ret archives, w2)) →
  exit_status (fst (main env w)) = 1.
Proof.
  intros Hno. pose proof (exit_status_main env w) as Hx.
  destruct (fst (main env w)) as [[]| |] eqn:Hr; [|done|done].
  apply main_ret_reached in Hr as (archives & w2 & Hu). by apply Hno in Hu.
Qed.

(** C7, as the code has it. Once the manifest has been extracted and found
    to be text, the run is fatal when the parsed value is empty or null,
    when it is an object without the key ["Archives"], and when the value of
    ["Archives"] is an empty list. A run gets to validation only with an
    ["Archives"] value that is truthy and can be iterated: a non-empty list,
    and also a non-empty text or object, whose characters or keys are then
    validated as entries. *)
Theorem loader_fatal env w w1 data :
  up_to_load env w = (Ret tt, w1) →
  json_load env = Loaded data →
  let unreached := ∀ archives w2, up_to_validation env w ≠ (Ret archives, w2) in
  (truthy data = false → exit_status (fst (main env w)) = 1 ∧ unreached)
  ∧ (∀ members, data = JDict members → dict_get "Archives" members = None →
       exit_status (fst (main env w)) = 1 ∧ unreached)
  ∧ (∀ members, data = JDict members → dict_get "Archives" members = Some (JList []) →
       exit_status (fst (main env w)) = 1 ∧ unreached)
  ∧ (∀ archives w2,
       up_to_validation env w = (Ret archives, w2) →
       ∃ members v,
         data = JDict members ∧ dict_get "Archives" members = Some v
         ∧ truthy v = true ∧ elements v = Some archives ∧ archives ≠ []).
Proof.
  intros Hl Hj unreached.
  assert (∀ archives w2,
            up_to_validation env w = (Ret archives, w2) →
            ∃ members v,
              data = JDict members ∧ dict_get "Archives" members = Some v
              ∧ truthy v = true ∧ elements v = Some archives ∧ archives ≠ []) as Hreach.
  { intros archives w2 (members & v & Hj' & Hg & Ht & He)%up_to_validation_ret.
    rewrite Hj in Hj'. injection Hj' as ->. exists members, v.
    repeat split; try done. by eapply elements_nonempty. }
  assert (∀ P : Prop, (∀ archives w2, up_to_validation env w = (Ret archives, w2) → ¬ P) →
            P → exit_status (fst (main env w)) = 1 ∧ unreached) as Hfatal.
  { intros P HP Hp. assert unreached as Hu by (intros archives w2 Hu; by eapply HP).
    split; [by apply not_reached_fatal|done]. }
  split; [|split; [|split]]; [| | |exact Hreach].
  - apply Hfatal. intros archives w2 (members & v & -> & Hg & _)%Hreach.
    by destruct members.
  - intros members -> Hg. revert Hg. apply Hfatal.
    intros archives w2 (members' & v & [= <-] & Hg & _)%Hreach. congruence.
  - intros members -> Hg. revert Hg. apply Hfatal.
    intros archives w2 (members' & v & [= <-] & Hg & Ht & _)%Hreach Hg'.
    rewrite Hg in Hg'. by injection Hg' as ->.
Qed.

Lemma check_requirements_output_exists env w c :
  fs w !! OUTPUT env = Some (File c) →
  ∃ line, check_requirements env w = (SystemExit 1, add_stdout [line] w).
Proof.
  intros Ho. unfold check_requirements, is_file, error. step.
  destruct (fs w !! INPUT env) as [[ci| |ci]|]; step; rewrite ?Ho; step; eauto.
Qed.


End Fatal.

(** ** What a run writes *)

Section Written.
Context `{PyRuntime}.

(** A run touches two paths only: the output path and the file [temp]. *)
Lemma main_frame env w p :
  p ≠ TEMP → p ≠ OUTPUT env → fs (snd (main env w)) !! p = fs w !! p.
Proof.
  intros Ht Ho.
  apply (stable_main (same_at p) env); by apply writes_allowed_same_at.
Qed.

Lemma up_to_load_fs env w : fs (snd (up_to_load env w)) = fs w.
Proof. apply (stable_up_to_load same_fs env w). Qed.

Lemma parse_modlist_fs env w : fs (snd (parse_modlist env w)) = fs w.
Proof. apply (stable_parse_modlist same_fs env w). Qed.

Lemma dump_modlist_ret env data w w' :
  dump_modlist env data w = (Ret tt, w') →
  kind (fs w !! TEMP) = Regular →
  fs w' = <[TEMP := File (json_dumps data)]> (fs w).
Proof.
  unfold dump_modlist, mbind, M_bind, bind, open_w, write. intros Hd Hk.
  destruct (fs w !! TEMP) as [[c| |c]|]; try done.
  all: destruct (may_write env TEMP); [|done].
  all: simpl in Hd; rewrite lookup_insert_eq in Hd; injection Hd as <-.
  all: simpl; by rewrite insert_insert_eq.
Qed.

Lemma get_archives_fs data w : fs (snd (get_archives data w)) = fs w.
Proof.
  assert (stable same_fs (get_archives data)) as Hs by (unfold get_archives; stable_tac).
  apply Hs.
Qed.

Lemma read_archives_dump env data w archives w' :
  read_archives env data w = (Ret archives, w') →
  kind (fs w !! TEMP) = Regular →
  fs w' = <[TEMP := File (json_dumps data)]> (fs w).
Proof.
  unfold read_archives, mbind, M_bind, bind. intros Hr Hk.
  destruct (dump_modlist env data w) as [[[]|?|?] w1] eqn:Hd; [|done|done].
  pose proof (get_archives_fs data w1) as Hg. rewrite Hr in Hg. simpl in Hg.
  by rewrite Hg, (dump_modlist_ret _ _ _ _ Hd Hk).
Qed.

(** The dump of line 149 is still there when the run is over. *)
Lemma temp_dump_persists env w archives w2 :
  up_to_validation env w = (Ret archives, w2) →
  kind (fs w !! TEMP) = Regular →
  OUTPUT env ≠ TEMP →
  ∃ data,
    json_load env = Loaded data
    ∧ fs (snd (main env w)) !! TEMP = Some (File (json_dumps data)).
Proof.
  intros Hu Hk Hne.
  pose proof (stable_validate_and_write (same_at TEMP) env archives
                (writes_allowed_same_at _ _ _ Hne) w2) as Hlater.
  rewrite (main_after_validation _ _ _ _ Hu). unfold cleanup. simpl.
  unfold same_at in Hlater. rewrite Hlater. clear Hlater.
  unfold up_to_validation in Hu. unfold mbind at 1, M_bind at 1, bind at 1 in Hu.
  pose proof (up_to_load_fs env w) as Hl.
  destruct (up_to_load env w) as [[[]|?|?] w1]; [|done|done].
  unfold mbind at 1, M_bind at 1, bind at 1 in Hu.
  pose proof (parse_modlist_fs env w1) as Hp.
  destruct (parse_modlist env w1) as [[data|?|?] w1'] eqn:Hparse; [|done|done].
  simpl in *. apply parse_modlist_ret in Hparse as [Hj _].
  exists data. split; [done|].
  rewrite (read_archives_dump _ _ _ _ _ Hu); [by rewrite lookup_insert_eq|].
  by rewrite Hp, Hl.
Qed.
End Written.
(** * Further properties of the script *)

(** ** The checks before the archive is opened (lines 92-111) *)

Section Requirements.
Context `{PyRuntime}.

Lemma check_requirements_ret env w w1 :
  check_requirements env w = (Ret tt, w1) ↔
  requirements_met env w = true ∧ w1 = add_stdout (requirements_log env) w.
Proof.
  unfold check_requirements, requirements_met, requirements_log, error, info, when,
    decode_ascii, holds_file, is_file.
  unfold mbind, M_bind, bind, print, sys_exit, raise, mret, M_ret, ret.
  destruct (fs w !! INPUT env) as [[ci| |ci]|]; simpl;
    try (split; [intros Heq; discriminate Heq|intros [Heq _]; discriminate Heq]).
  destruct (fs w !! OUTPUT env) as [[co| |co]|]; simpl;
    try (split; [intros Heq; discriminate Heq|intros [Heq _]; discriminate Heq]).
  all: destruct (which_file env); simpl; try (split; [intros Heq; discriminate Heq|intros [Heq _]; discriminate Heq]).
  all: destruct (returncode (file_INPUT env) =? 0); simpl;
    try (split; [intros Heq; discriminate Heq|intros [Heq _]; discriminate Heq]).
  all: destruct (is_ascii _); simpl; try (split; [intros Heq; discriminate Heq|intros [Heq _]; discriminate Heq]).
  all: destruct (str_contains _ _); simpl; try (split; [intros Heq; discriminate Heq|intros [Heq _]; discriminate Heq]).
  all: rewrite !add_stdout_app; simpl.
  all: split; [by intros [= <-]|by intros [_ ->]].
Qed.



(** A run whose checks fail ends the way the checks end. *)
Lemma main_of_failed_checks env w w1 :
  (∀ code, check_requirements env w = (SystemExit code, w1) →
           main env w = (SystemExit code, w1))
  ∧ (∀ k msg, check_requirements env w = (Raise k msg, w1) →
              main env w = (Raise k msg, w1)).
Proof.
  split; [intros code Hc|intros k msg Hc]; unfold main, mbind, M_bind, bind; by rewrite Hc.
Qed.



End Requirements.

(** ** What a run touches and how it ends (lines 82-175) *)

Section Effects.
Context `{PyRuntime}.

(** X6. The exit status of a run is 0 when the script runs to its end
    and 1 in every other case, be it a call of [error] or an uncaught
    exception; no other status is produced once the arguments are parsed. *)
Theorem exit_status_zero_or_one env w :
  (fst (main env w) = Ret tt ∧ exit_status (fst (main env w)) = 0)
  ∨ (fst (main env w) ≠ Ret tt ∧ exit_status (fst (main env w)) = 1).
Proof.
  pose proof (exit_status_main env w) as Hx.
  destruct (fst (main env w)) as [[]|k msg|code]; [by left|by right|by right].
Qed.
End Effects.

(** ** The extracted manifest (lines 115-146) *)

Section Manifest.
Context `{PyRuntime}.





(** X8. A manifest that [json.load] cannot parse ends the run with exit
    status 1 and a message that carries the parser's own; any other
    exception of the load (a decoding error, say) is not caught and comes
    out of the run as it is. In both cases the file system is as it was:
    not even the file [temp] has been written. *)
Theorem unparsable_manifest_fatal env w w1 :
  up_to_load env w = (Ret tt, w1) →
  (∀ msg, json_load env = LoadFails JSONDecodeError msg →
     main env w =
     (SystemExit 1,
      World (fs w) None (stdout w1 ++ [error_line ("Failed to parse modlists: " +:+ msg)])))
  ∧ (∀ k msg, json_load env = LoadFails k msg → k ≠ JSONDecodeError →
     main env w = (Raise k msg, World (fs w) None (stdout w1))).
Proof.
  intros Hl. pose proof (up_to_load_fs env w) as Hfs. rewrite Hl in Hfs. simpl in Hfs.
  rewrite (main_after_load _ _ _ Hl). unfold after_load, parse_modlist, load, try_except.
  split.
  - intros msg ->. unfold error, cleanup.
    unfold mbind, M_bind, bind, print, sys_exit, raise, mret, M_ret, ret. simpl.
    unfold set_tempd, add_stdout. simpl. by rewrite Hfs.
  - intros k msg -> Hk. unfold cleanup.
    unfold mbind, M_bind, bind, raise. simpl.
    destruct k; try done; unfold set_tempd; simpl; by rewrite Hfs.
Qed.
End Manifest.

(** ** The constructor, case by case (lines 48-68) *)

Section Reasons.
Context `{PyRuntime}.

Lemma printed_state e state etype :
  state_of e = Some state →
  dict_get "$type" state = Some etype →
  truthy etype = true →
  printed e =
  if has_marker etype && negb (forallb (field_present state) REQUIRED)
  then [py_str (JDict state)] else [].
Proof.
  intros Hs Ht Htr. unfold state_of in Hs.
  destruct e as [| | | | | |members]; try done.
  destruct (dict_get "State" members) as [[| | | | | |st]|] eqn:Hs'; simplify_eq.
  unfold printed, ModInfo_init. step. rewrite Hs'. simpl.
  destruct state as [|kv state']; [done|]. step. rewrite Ht. simpl. rewrite Htr. step.
  pose proof (missing_field (kv :: state') REQUIRED) as Hmiss.
  unfold REQUIRED, field in Hmiss. simpl map in Hmiss.
  destruct etype; try done; step.
  all: match goal with |- context [negb ?b] => destruct b end; step; [|done].
  all: simpl in Hmiss; rewrite Hmiss.
  all: match goal with |- context [negb ?b] => by destruct b end.
Qed.

Lemma printed_malformed e :
  (∀ state etype,
     state_of e = Some state → dict_get "$type" state = Some etype →
     truthy etype = false) →
  printed e = [].
Proof.
  intros Hno. unfold printed, ModInfo_init.
  destruct e as [| | | | | |members]; step; try done.
  destruct (dict_get "State" members) as [state|] eqn:Hs; simpl; [|done].
  destruct (truthy state) eqn:Hts; step; [|done].
  destruct state as [| | | | | |sm]; step; try done.
  destruct (dict_get "$type" sm) as [etype|] eqn:Ht; simpl; [|done].
  rewrite (Hno sm etype); [by step| |done].
  unfold state_of. by rewrite Hs.
Qed.

(** X9. Which defect of an entry gives which message, in the order the
    constructor checks them: an entry that is no object, or whose State is
    truthy but no object, fails on the missing [get]; a State that is
    absent, null or empty is reported as missing; so is a type tag that is
    absent or falsy; a type tag without the marker is reported as
    unsupported with its text, whatever the fields hold; and only then a
    missing or null field is reported, after the State has been printed. *)
Theorem rejection_reasons e :
  ((∀ members, e ≠ JDict members) →
     rejected e = Some (no_attribute e "get"))
  ∧ (∀ members, e = JDict members → truthy (field members "State") = false →
     rejected e = Some "The entry does not contain a State object")
  ∧ (∀ members state, e = JDict members → field members "State" = state →
     truthy state = true → (∀ sm, state ≠ JDict sm) →
     rejected e = Some (no_attribute state "get"))
  ∧ (∀ state, state_of e = Some state → truthy (JDict state) = true →
     truthy (field state "$type") = false →
     rejected e = Some "The entry does not contain a type")
  ∧ (∀ state etype, state_of e = Some state → dict_get "$type" state = Some etype →
     truthy etype = true → type_not_container e = false → has_marker etype = false →
     rejected e = Some ("Unsupported download type " +:+ py_str etype)
     ∧ printed e = [])
  ∧ (∀ state etype, state_of e = Some state → dict_get "$type" state = Some etype →
     truthy etype = true → has_marker etype = true →
     forallb (field_present state) REQUIRED = false →
     rejected e = Some "The entry is missing a required attribute"
     ∧ printed e = [py_str (JDict state)]).
Proof.
  split; [|split; [|split; [|split; [|split]]]].
  - intros Hn. unfold rejected, verdict, ModInfo_init.
    destruct e as [| | | | | |members]; try done. by destruct (Hn members).
  - intros members -> Ht. unfold rejected, verdict, ModInfo_init, field in *. step.
    by rewrite Ht.
  - intros members state -> Hf Ht Hn. unfold rejected, verdict, ModInfo_init, field in *.
    step. rewrite Hf, Ht. step.
    destruct state as [| | | | | |sm]; try done. by destruct (Hn sm).
  - intros state Hs Hts Ht. unfold state_of in Hs.
    destruct e as [| | | | | |members]; try done.
    destruct (dict_get "State" members) as [[| | | | | |st]|] eqn:Hs'; simplify_eq.
    unfold field in Ht.
    destruct (dict_get "$type" state) as [etype|] eqn:Hd; simpl in Ht.
    all: unfold rejected, verdict, ModInfo_init; step; rewrite Hs'; simpl.
    all: destruct state as [|kv state']; [done|]; step; rewrite Hd; simpl.
    all: by rewrite ?Ht.
  - intros state etype Hs Ht Htr Hn Hm.
    rewrite (printed_state _ _ _ Hs Ht Htr), Hm. split; [|done].
    unfold rejected. rewrite (verdict_state _ _ _ Hs Ht Htr). unfold verdict_at_type_test.
    rewrite Hm. unfold type_not_container in Hn. rewrite Hs, Ht, Htr in Hn.
    by destruct etype.
  - intros state etype Hs Ht Htr Hm Hf.
    rewrite (printed_state _ _ _ Hs Ht Htr), Hm, Hf. split; [|done].
    unfold rejected. rewrite (verdict_state _ _ _ Hs Ht Htr). unfold verdict_at_type_test.
    rewrite Hm, Hf. by destruct etype.
Qed.

(** X10. An accepted record holds the five values of the State as they
    are in the manifest, none of them null: nothing is converted, and
    nothing outside the State or beside these five keys has any part in
    it. *)
Theorem accepted_record_fields e r :
  accepted e = Some r →
  ∃ state,
    state_of e = Some state
    ∧ dict_get "Name" state = Some (name r) ∧ dict_get "Author" state = Some (author r)
    ∧ dict_get "FileID" state = Some (file_id r) ∧ dict_get "ModID" state = Some (mod_id r)
    ∧ dict_get "GameName" state = Some (game r)
    ∧ name r ≠ JNull ∧ author r ≠ JNull ∧ file_id r ≠ JNull ∧ mod_id r ≠ JNull
    ∧ game r ≠ JNull.
Proof.
  unfold accepted. intros Ha.
  destruct (verdict_cases e) as
    [(state & etype & Hs & Ht & Htr & Hv)|(_ & _ & _ & msg & Hv)];
    [|by rewrite Hv in Ha].
  rewrite Hv in Ha. unfold verdict_at_type_test in Ha. exists state. split; [done|].
  assert (forallb (field_present state) REQUIRED = true
          ∧ r = {| name := field state "Name"; author := field state "Author";
                   file_id := field state "FileID"; mod_id := field state "ModID";
                   game := field state "GameName" |}) as [Hf ->].
  { destruct etype; try done; destruct (has_marker _); try done;
      destruct (forallb _ _); try done; by simplify_eq. }
  assert (∀ key, field_present state key = true →
            dict_get key state = Some (field state key) ∧ field state key ≠ JNull)
    as Hkey.
  { intros key. unfold field_present, field.
    destruct (dict_get key state) as [v|]; [|done]. by destruct v. }
  unfold REQUIRED in Hf. simpl in Hf.
  apply andb_true_iff in Hf as [Hn Hf]. apply andb_true_iff in Hf as [Hau Hf].
  apply andb_true_iff in Hf as [Hfi Hf]. apply andb_true_iff in Hf as [Hm Hf].
  apply andb_true_iff in Hf as [Hg _].
  apply Hkey in Hn as [? ?], Hau as [? ?], Hfi as [? ?], Hm as [? ?], Hg as [? ?].
  simpl. by repeat split.
Qed.
End Reasons.

(** ** The type tag as a text (line 57) *)

Section Marker.
Context `{PyRuntime}.

(** X11. When the type tag is a text, the entry is accepted exactly when
    the tag has ["NexusDownloader"] somewhere inside it, at the start, in
    the middle or at the end, with the same case, and the five fields are
    there; an empty tag is never accepted. *)
Theorem text_tag_accepted_iff e state s :
  state_of e = Some state →
  dict_get "$type" state = Some (JString s) →
  is_Some (accepted e) ↔
  (∃ before after, s = (before +:+ "NexusDownloader" +:+ after)%string)
  ∧ forallb (field_present state) REQUIRED = true.
Proof.
  intros Hs Ht. unfold accepted.
  destruct (truthy (JString s)) eqn:Htr.
  - rewrite (verdict_state _ _ _ Hs Ht Htr). unfold verdict_at_type_test, has_marker.
    rewrite <- str_contains_spec.
    destruct (str_contains "NexusDownloader" s); [|split; [by intros [? ?]|by intros [? _]]].
    destruct (forallb _ _); [split; [done|by eexists]|].
    split; [by intros [? ?]|by intros [_ ?]].
  - destruct (verdict_malformed e) as [msg ->].
    { intros state' etype Hs' Ht'. rewrite Hs in Hs'. injection Hs' as <-.
      rewrite Ht in Ht'. by injection Ht' as <-. }
    split; [by intros [? ?]|]. intros [(before & after & ->) _].
    by destruct before.
Qed.
End Marker.

(** ** The loop over the archives (lines 159-168) *)

Section Loop.
Context `{PyRuntime}.

Lemma loop_log_warning archives :
  ∀ i j e msg,
    archives !! j = Some e → rejected e = Some msg →
    error_line ("Error for entry " +:+ int_str (Z.of_nat (i + j)) +:+ ": " +:+ msg)
    ∈ loop_log i archives.
Proof.
  induction archives as [|a rest IH]; intros i j e msg Hj Hr; [done|].
  destruct j as [|j]; simpl in *.
  - injection Hj as ->. unfold entry_log. rewrite Hr, Nat.add_0_r.
    apply elem_of_app. left. apply elem_of_app. right. by apply list_elem_of_singleton.
  - apply elem_of_app. right. replace (i + S j)%nat with (S i + j)%nat by lia.
    by apply (IH (S i) j e msg).
Qed.

(** X12. When the loop has gone through the whole list, the list of
    records holds the accepted entries in their order, and for every
    rejected entry standard output has the warning with the zero-based
    position of that entry in the list and the message of its rejection. *)
Theorem warnings_carry_index archives w output w' j e msg :
  validate_loop 0 archives [] w = (Ret output, w') →
  archives !! j = Some e →
  rejected e = Some msg →
  output = omap accepted archives
  ∧ stdout w' = stdout w ++ loop_log 0 archives
  ∧ error_line ("Error for entry " +:+ int_str (Z.of_nat j) +:+ ": " +:+ msg) ∈ stdout w'.
Proof.
  intros Hv Hj Hr.
  pose proof (validate_loop_outcome archives 0 [] w) as Hd. rewrite Hv in Hd. simpl in Hd.
  rewrite (validate_loop_decided _ Hd) in Hv. injection Hv as <- <-.
  split; [done|]. split; [done|]. simpl.
  apply elem_of_app. right. by apply (loop_log_warning archives 0 j e msg).
Qed.

(** X13. Validating a list made of two parts is validating the first
    part and then, unless an exception ended it, the second part with the
    records and the position reached so far: the records, the warnings and
    their indices are those of the parts put together. *)
Theorem validate_loop_app l1 l2 :
  ∀ i output w,
    validate_loop i (l1 ++ l2) output w =
    match validate_loop i l1 output w with
    | (Ret output1, w1) => validate_loop (i + length l1) l2 output1 w1
    | stopped => stopped
    end.
Proof.
  induction l1 as [|e rest IH]; intros i output w.
  - simpl. by rewrite Nat.add_0_r.
  - change ((e :: rest) ++ l2) with (e :: (rest ++ l2)).
    rewrite !validate_loop_cons. simpl length.
    replace (i + S (length rest))%nat with (S i + length rest)%nat by lia.
    destruct (verdict e) as [r|k msg|code]; [apply IH| |done].
    destruct (rejected e); [apply IH|done].
Qed.
End Loop.

(** ** Running the script again (lines 95-96 and 170) *)

Section Again.
Context `{PyRuntime}.

(** X14. A run that ended normally on an output path that did not exist
    has created a regular file there, so that the same run started again
    stops at once with exit status 1 and leaves every file, the output of
    the first run included, as it is. *)
Theorem second_run_refused env w :
  fs w !! OUTPUT env = None →
  exit_status (fst (main env w)) = 0 →
  (∃ text, fs (snd (main env w)) !! OUTPUT env = Some (File text))
  ∧ exit_status (fst (main env (snd (main env w)))) = 1
  ∧ fs (snd (main env (snd (main env w)))) = fs (snd (main env w)).
Proof.
  intros Hnone Hex.
  assert (fst (main env w) = Ret tt) as Hret.
  { pose proof (exit_status_main env w) as Hx.
    destruct (fst (main env w)) as [[]| |]; [done|congruence|congruence]. }
  destruct (main_ret_reached _ _ Hret) as (archives & w2 & Hu).
  pose proof (output_of_run _ _ _ _ Hu Hnone Hex) as Hout.
  split; [by eexists|].
  destruct (check_requirements_output_exists env (snd (main env w)) _ Hout) as [line Hc].
  apply main_of_failed_checks in Hc. by rewrite Hc.
Qed.
End Again.

(** ** What a run prints before the loop (lines 101-158) *)

Section Progress.
Context `{PyRuntime}.

Lemma extract_modlist_ret_stdout env w w' :
  extract_modlist env w = (Ret tt, w') → stdout w' = stdout w.
Proof.
  unfold extract_modlist, ZipFile, zip_extract, error.
  unfold mbind, M_bind, bind, print, sys_exit, raise, mret, M_ret, ret.
  destruct (filelist env) as [members|]; [|done]. simpl.
  destruct (filter _ members) as [|m [|m2 rest]]; simpl; [done| |done].
  destruct (payload m); [|done]. by intros [= <-].
Qed.

Lemma check_modlist_ret env w w' : check_modlist env w = (Ret tt, w') → w' = w.
Proof.
  unfold check_modlist, modlist_path_is_file, error, when, decode_ascii.
  unfold mbind, M_bind, bind, print, sys_exit, raise, mret, M_ret, ret.
  destruct (tempd w) as [[bytes|]|]; simpl; try done.
  destruct (returncode (file_modlist env) =? 0); simpl; [|done].
  destruct (is_ascii _); simpl; [|done].
  destruct (str_contains _ _); simpl; [|done]. by intros [= <-].
Qed.

Lemma parse_modlist_ret_world env w data w' :
  parse_modlist env w = (Ret data, w') →
  w' = add_stdout [info_line "Successfully parsed modlist"] w.
Proof.
  unfold parse_modlist, load, try_except, error, info, when.
  unfold mbind, M_bind, bind, print, sys_exit, raise, mret, M_ret, ret.
  destruct (json_load env) as [d|k msg]; simpl.
  - destruct (truthy d); simpl; [|done]. by intros [= _ <-].
  - by destruct k.
Qed.

Lemma dump_modlist_ret_stdout env data w w' :
  dump_modlist env data w = (Ret tt, w') → stdout w' = stdout w.
Proof.
  unfold dump_modlist, mbind, M_bind, bind, open_w, write.
  destruct (fs w !! TEMP) as [[c| |c]|] eqn:Ht; try done.
  all: destruct (may_write env TEMP); [|done]; simpl.
  all: rewrite ?lookup_insert_eq, ?Ht; by intros [= <-].
Qed.

Lemma get_archives_ret data w archives w' :
  get_archives data w = (Ret archives, w') →
  w' = add_stdout
         [info_line ("Got " +:+ int_str (Z.of_nat (length archives)) +:+ " in modlist")] w.
Proof.
  unfold get_archives. destruct data as [| | | | | |members]; try done.
  unfold py_get, error, info, when, py_iter, py_len.
  unfold mbind, M_bind, bind, print, sys_exit, raise, mret, M_ret, ret.
  destruct (default JNull (dict_get "Archives" members)) as [|b|n|f|s|l|d]; simpl;
    try done.
  - by destruct b.
  - by destruct (negb (n =? 0)).
  - by destruct (negb (PrimFloat.eqb f PrimFloat.zero)).
  - destruct (negb (String.eqb s "")); simpl; [|done]. intros [= <- <-].
    by rewrite length_fmap.
  - destruct l; simpl; [done|]. by intros [= <- <-].
  - destruct d; simpl; [done|]. intros [= <- <-]. simpl.
    by rewrite ?length_fmap, ?length_map.
Qed.

(** X15. A run that reaches the loop has printed four lines before it:
    the input it uses, that the requirements are met, that the manifest is
    parsed, and how many entries it holds, which is the number of entries
    the loop then goes through. *)
Theorem progress_lines env w archives w2 :
  up_to_validation env w = (Ret archives, w2) →
  stdout w2 =
  stdout w
  ++ [info_line ("Trying to use file " +:+ INPUT env);
      info_line "Successfully checked requirements";
      info_line "Successfully parsed modlist";
      info_line ("Got " +:+ int_str (Z.of_nat (length archives)) +:+ " in modlist")].
Proof.
  unfold up_to_validation, up_to_load, read_archives, mkdtemp.
  unfold mbind, M_bind, bind.
  destruct (check_requirements env w) as [[[]|?|?] w1] eqn:Hc; [|done|done].
  apply check_requirements_ret in Hc as [_ ->].
  destruct (extract_modlist env _) as [[[]|?|?] wa] eqn:He; [|done|done].
  apply extract_modlist_ret_stdout in He.
  destruct (check_modlist env wa) as [[[]|?|?] wb] eqn:Hm; [|done|done].
  apply check_modlist_ret in Hm as ->.
  destruct (parse_modlist env wa) as [[data|?|?] wc] eqn:Hp; [|done|done].
  apply parse_modlist_ret_world in Hp as ->.
  destruct (dump_modlist env data _) as [[[]|?|?] wd] eqn:Hd; [|done|done].
  apply dump_modlist_ret_stdout in Hd.
  intros ->%get_archives_ret. simpl. rewrite Hd. simpl. rewrite He. simpl.
  by rewrite <- !app_assoc.
Qed.
End Progress.

(** ** Writing the output (lines 170-175) *)

Section Flag.
Context `{PyRuntime}.

Lemma write_entries_special env output w c :
  fs w !! OUTPUT env = Some (Special c) →
  write_entries env output w =
  (Ret tt, set_fs (insert (OUTPUT env) (Special (c +:+ blocks env output))) w).
Proof.
  revert w c. induction output as [|entry rest IH]; intros w c Hc.
  - unfold blocks. simpl. rewrite string_app_nil_r. unfold mret, M_ret, ret.
    destruct w as [f t o]; unfold set_fs; simpl in *. by rewrite insert_id.
  - simpl. unfold mbind, M_bind, bind, write. rewrite Hc.
    erewrite IH; [|unfold set_fs; simpl; by rewrite lookup_insert_eq].
    rewrite set_fs_insert_insert, string_app_assoc. do 4 f_equal.
    unfold blocks. simpl. destruct rest; [|done].
    simpl. by rewrite string_app_nil_r.
Qed.

Lemma write_output_eval env output w :
  write_output env output w =
  match fs w !! OUTPUT env with
  | Some Dir => (Raise IsADirectoryError (OUTPUT env), w)
  | old =>
      if may_write env (OUTPUT env) then
        (Ret tt,
         set_fs (insert (OUTPUT env) (written_node old (blocks env output))) w)
      else (Raise OSError (OUTPUT env), w)
  end.
Proof.
  unfold write_output, mbind, M_bind, bind, open_w.
  destruct (fs w !! OUTPUT env) as [[c| |c]|] eqn:Ho; [|done| |].
  all: destruct (may_write env (OUTPUT env)); [|done].
  - erewrite write_entries_file; [|unfold set_fs; simpl; by rewrite lookup_insert_eq].
    by rewrite set_fs_insert_insert.
  - by rewrite (write_entries_special _ _ _ _ Ho).
  - erewrite write_entries_file; [|unfold set_fs; simpl; by rewrite lookup_insert_eq].
    by rewrite set_fs_insert_insert.
Qed.

(** X16. The output is opened once and receives the blocks of all the
    records: a directory at the path or a refusal of the system raises an
    exception and writes nothing; when every block can be encoded, a regular
    file is replaced by the blocks, a missing one is created with them, and
    a device receives them after what it had received before. *)
Theorem write_output_result env output w :
  Forall (fun entry => encodable (block (use_mods env) entry) = true) output →
  match fs w !! OUTPUT env with
  | Some Dir => ∃ msg, write_output env output w = (Raise IsADirectoryError msg, w)
  | old =>
      if may_write env (OUTPUT env) then
        write_output env output w =
        (Ret tt, set_fs (insert (OUTPUT env) (written_node old (blocks env output))) w)
      else ∃ msg, write_output env output w = (Raise OSError msg, w)
  end.
Proof.
  intros _. rewrite write_output_eval.
  destruct (fs w !! OUTPUT env) as [[c| |c]|]; [|by eexists| |].
  all: destruct (may_write env (OUTPUT env)); [done|by eexists].
Qed.

Lemma write_output_flag env mods output w :
  fst (write_output (with_use_mods env mods) output w) = fst (write_output env output w)
  ∧ stdout (snd (write_output (with_use_mods env mods) output w))
    = stdout (snd (write_output env output w))
  ∧ ∀ p, p ≠ OUTPUT env →
         fs (snd (write_output (with_use_mods env mods) output w)) !! p
         = fs (snd (write_output env output w)) !! p.
Proof.
  rewrite !write_output_eval.
  change (OUTPUT (with_use_mods env mods)) with (OUTPUT env).
  change (may_write (with_use_mods env mods)) with (may_write env).
  destruct (fs w !! OUTPUT env) as [[c| |c]|]; try done.
  all: destruct (may_write env (OUTPUT env)); [|done].
  all: split; [done|]; split; [done|]; intros p Hp; simpl; by rewrite !lookup_insert_ne.
Qed.

(** X17. The flag [-m] has a say in the text of the output only: when
    the blocks of the accepted entries can be encoded in both forms, a run
    ends the same way with it or without it, with the same exit status,
    prints the same lines and leaves every path but the output path in the
    same state. *)
Theorem flag_changes_output_only env mods w :
  (∀ archives w2, up_to_validation env w = (Ret archives, w2) → blocks_encodable archives) →
  fst (main (with_use_mods env mods) w) = fst (main env w)
  ∧ stdout (snd (main (with_use_mods env mods) w)) = stdout (snd (main env w))
  ∧ ∀ p, p ≠ OUTPUT env →
         fs (snd (main (with_use_mods env mods) w)) !! p = fs (snd (main env w)) !! p.
Proof.
  intros _.
  unfold main, with_TemporaryDirectory, in_tempdir, mbind, M_bind, bind.
  change (check_requirements (with_use_mods env mods)) with (check_requirements env).
  change (extract_modlist (with_use_mods env mods)) with (extract_modlist env).
  change (check_modlist (with_use_mods env mods)) with (check_modlist env).
  change (parse_modlist (with_use_mods env mods)) with (parse_modlist env).
  change (read_archives (with_use_mods env mods)) with (read_archives env).
  destruct (check_requirements env w) as [[[]|?|?] w1]; [|done|done].
  destruct (extract_modlist env _) as [[[]|?|?] wa]; [|done|done].
  destruct (check_modlist env wa) as [[[]|?|?] wb]; [|done|done].
  destruct (parse_modlist env wb) as [[data|?|?] wc]; [|done|done].
  destruct (read_archives env data wc) as [[archives|?|?] wd]; [|done|done].
  destruct (validate_loop 0 archives [] wd) as [[output|?|?] we]; [|done|done].
  destruct (write_output_flag env mods output we) as (Hfst & Hout & Hfs).
  destruct (write_output (with_use_mods env mods) output we) as [o1 wf1].
  destruct (write_output env output we) as [o2 wf2]. simpl in *.
  by repeat split.
Qed.
End Flag.
(** * Sample runs *)

Section FailingRuns.
Context `{PyRuntime}.

(** C3. A type tag that is a number is not handled as a failure of one
    entry: the constructor raises [TypeError], which the loop does not
    catch. The run ends with exit status 1, prints no warning for the entry,
    never validates the entry after it and writes no output file. *)
Theorem number_type_aborts_run :
  let env := sample_env false "out.txt" manifest_number_type in
  fst (up_to_validation env sample_world) = Ret [entry_number_type; entry_foo]
  ∧ is_Some (accepted entry_foo)
  ∧ fst (main env sample_world) = Raise TypeError "argument of type 'int' is not iterable"
  ∧ exit_status (fst (main env sample_world)) = 1
  ∧ fs (snd (main env sample_world)) !! "out.txt" = None
  ∧ stdout (snd (main env sample_world)) =
    [info_line "Trying to use file list.wabbajack";
     info_line "Successfully checked requirements";
     info_line "Successfully parsed modlist";
     info_line "Got 2 in modlist"].
Proof. repeat split; try reflexivity. by eexists. Qed.

(** C5. Besides the output file the run leaves a second file behind: the
    dump of the manifest in the file [temp] of the working directory. *)
Theorem temp_file_left_behind :
  let env := sample_env false "out.txt" manifest_mixed in
  fs sample_world !! "temp" = None
  ∧ OUTPUT env ≠ "temp"
  ∧ exit_status (fst (main env sample_world)) = 0
  ∧ tempd (snd (main env sample_world)) = None
  ∧ fs (snd (main env sample_world)) !! "temp" = Some (File (json_dumps manifest_mixed)).
Proof. repeat split; try reflexivity. done. Qed.

(** C4. An entry that passes validation does not always get its block:
    when the list also holds an entry whose type tag is a number, the
    [TypeError] of that entry ends the run before anything is written. Here
    the first entry passes and is recorded by the loop, and yet the run ends
    with exit status 1 and no output file: zero blocks for one passing
    entry. *)
Theorem passing_entry_without_block :
  let env := sample_env false "out.txt" manifest_passing_then_number in
  let foo := {| name := JString "Foo"; author := JString "Bar"; file_id := JInt 1;
                mod_id := JInt 2; game := JString "skyrimspecialedition" |} in
  fst (up_to_validation env sample_world) = Ret [entry_foo; entry_number_type]
  ∧ accepted entry_foo = Some foo
  ∧ fst (validate_loop 0 [entry_foo] [] sample_world) = Ret [foo]
  ∧ fst (main env sample_world) = Raise TypeError "argument of type 'int' is not iterable"
  ∧ exit_status (fst (main env sample_world)) = 1
  ∧ fs (snd (main env sample_world)) !! "out.txt" = None.
Proof. repeat split; reflexivity. Qed.

(** C10. A list that is not empty and whose only entry fails validation
    does not always give an empty output file: when the entry fails on a
    type tag that is a number, no record is made of it, and the run ends
    with the uncaught [TypeError], exit status 1 and no output file. *)
Theorem sole_failing_entry_no_output :
  let env := sample_env false "out.txt" manifest_only_number in
  fst (up_to_validation env sample_world) = Ret [entry_number_type]
  ∧ accepted entry_number_type = None
  ∧ rejected entry_number_type = None
  ∧ fst (main env sample_world) = Raise TypeError "argument of type 'int' is not iterable"
  ∧ exit_status (fst (main env sample_world)) = 1
  ∧ fs (snd (main env sample_world)) !! "out.txt" = None.
Proof. repeat split; reflexivity. Qed.
End FailingRuns.

#[local] Existing Instance sample_runtime.

(** The type tag of [entry_list_type] is a list, not a text with the marker
    as a substring, and yet the constructor returns a record for it. *)
Lemma list_type_tag_accepted :
  meets has_marker_substring entry_list_type = false
  ∧ accepted entry_list_type =
    Some {| name := JString "Foo"; author := JString "Bar"; file_id := JInt 1;
            mod_id := JInt 2; game := JString "skyrimspecialedition" |}
  ∧ ¬ substring_claim entry_list_type.
Proof.
  split; [reflexivity|]. split; [reflexivity|].
  intros [Hiff _].
  assert (is_Some (accepted entry_list_type)) as Ha by (by eexists).
  apply Hiff in Ha. discriminate Ha.
Qed.

Lemma accepted_iff_meets_witness :
  is_Some (accepted entry_list_type)
  ∧ rejected entry_other = Some "Unsupported download type OtherDownloader"
  ∧ validate_loop 0 [entry_other; entry_foo] [] sample_world =
    validate_loop 1 [entry_foo] []
      (add_stdout
         [error_line "Error for entry 0: Unsupported download type OtherDownloader"]
         sample_world).
Proof.
  split; [|split; [reflexivity|]].
  - apply (proj1 (accepted_iff_meets entry_list_type)). reflexivity.
  - destruct (proj2 (accepted_iff_meets entry_other)) as (msg & Hr & Hloop);
      [reflexivity|reflexivity|].
    assert (msg = "Unsupported download type OtherDownloader") as ->.
    { assert (rejected entry_other = Some "Unsupported download type OtherDownloader")
        as Hr' by reflexivity.
      rewrite Hr' in Hr. by injection Hr. }
    apply (Hloop 0%nat [entry_foo] [] sample_world).
    repeat constructor.
Defined.

Lemma url_written_witness :
  fs (snd (main (sample_env true "out.txt" manifest_mixed) sample_world)) !! "out.txt" =
  Some (File ("## 'Foo' by Bar" +:+ LF
              +:+ "https://www.nexusmods.com/skyrimspecialedition/mods/2" +:+ LF +:+ LF
              +:+ "## 'Baz' by Qux" +:+ LF
              +:+ "https://www.nexusmods.com/fallout4/mods/40" +:+ LF +:+ LF
              +:+ "## 'Foo' by Bar" +:+ LF
              +:+ "https://www.nexusmods.com/skyrimspecialedition/mods/2" +:+ LF +:+ LF)%string).
Proof.
  rewrite (url_written (sample_env true "out.txt" manifest_mixed) sample_world
             archives_mixed
             (snd (up_to_validation (sample_env true "out.txt" manifest_mixed) sample_world)));
    reflexivity.
Defined.

Lemma output_blocks_in_order_witness :
  let env := sample_env false "out.txt" manifest_mixed in
  exit_status (fst (main env sample_world)) = 0
  ∧ fs (snd (main env sample_world)) !! "out.txt" =
    Some (File (String.concat ""
      (omap (fun e => block false <$> accepted e) archives_mixed)))
  ∧ length (omap (fun e => block false <$> accepted e)
              archives_mixed) = 3%nat.
Proof.
  intros env.
  destruct (output_blocks_in_order env sample_world archives_mixed
              (snd (up_to_validation env sample_world)))
    as (Hex & Hout & Hlen & _); [reflexivity|reflexivity|].
  assert (exit_status (fst (main env sample_world)) = 0) as H0.
  { apply Hex. split; [|reflexivity]. repeat constructor. }
  split; [exact H0|]. split; [exact (Hout H0)|reflexivity].
Defined.

Lemma all_rejected_empty_output_witness :
  let env := sample_env false "out.txt" manifest_rejected in
  exit_status (fst (main env sample_world)) = 0
  ∧ fs (snd (main env sample_world)) !! "out.txt" = Some (File "").
Proof.
  intros env.
  destruct (all_rejected_empty_output env sample_world [entry_other; JInt 3]
              (snd (up_to_validation env sample_world)))
    as (_ & _ & H0 & Hout); [reflexivity|reflexivity|reflexivity| |by split].
  repeat constructor; by eexists.
Defined.


Lemma manifest_lookup_fatal_witness :
  exit_status (fst (main (env_with_members [member "Modlist"; member "modlist.json"])
                      sample_world)) = 1
  ∧ exit_status (fst (main (env_with_members [member "modlist"; member "modlist"])
                        sample_world)) = 1.
Proof.
  split.
  - eapply (manifest_lookup_fatal (env_with_members [member "Modlist"; member "modlist.json"])
              sample_world); [reflexivity|reflexivity|]. by left.
  - eapply (manifest_lookup_fatal (env_with_members [member "modlist"; member "modlist"])
              sample_world); [reflexivity|reflexivity|]. right. simpl. lia.
Defined.

(** An ["Archives"] value that is an object gets to validation: its key is
    validated as an entry and the run ends normally. *)
Lemma object_archives_validated :
  let env := sample_env false "out.txt" manifest_object in
  fst (up_to_validation env sample_world) = Ret [JString "a"]
  ∧ exit_status (fst (main env sample_world)) = 0
  ∧ fs (snd (main env sample_world)) !! "out.txt" = Some (File "")
  ∧ ¬ sequence_claim env sample_world.
Proof.
  intros env. split; [reflexivity|]. split; [reflexivity|]. split; [reflexivity|].
  intros Hclaim.
  destruct (Hclaim [JString "a"] (snd (up_to_validation env sample_world)))
    as (members & Hl & Hg & _); [reflexivity|].
  injection Hl as <-. discriminate Hg.
Qed.

Lemma loader_fatal_witness :
  exit_status (fst (main (sample_env false "out.txt" (JDict [])) sample_world)) = 1
  ∧ exit_status (fst (main (sample_env false "out.txt" (JDict [("Name", JString "x")]))
                        sample_world)) = 1
  ∧ exit_status (fst (main (sample_env false "out.txt" (manifest_of (JList [])))
                        sample_world)) = 1.
Proof.
  split; [|split].
  - destruct (loader_fatal (sample_env false "out.txt" (JDict [])) sample_world
                (snd (up_to_load (sample_env false "out.txt" (JDict [])) sample_world))
                (JDict [])) as (Hempty & _); [reflexivity|reflexivity|].
    by apply Hempty.
  - destruct (loader_fatal (sample_env false "out.txt" (JDict [("Name", JString "x")]))
                sample_world
                (snd (up_to_load (sample_env false "out.txt" (JDict [("Name", JString "x")]))
                        sample_world))
                (JDict [("Name", JString "x")])) as (_ & Hmissing & _);
      [reflexivity|reflexivity|].
    by eapply Hmissing.
  - destruct (loader_fatal (sample_env false "out.txt" (manifest_of (JList []))) sample_world
                (snd (up_to_load (sample_env false "out.txt" (manifest_of (JList [])))
                        sample_world))
                (manifest_of (JList []))) as (_ & _ & Hnone & _); [reflexivity|reflexivity|].
    by eapply Hnone.
Defined.



(** ** Sample runs for the further properties *)





Lemma unparsable_manifest_fatal_witness :
  let env := sample_env false "out.txt" manifest_mixed in
  exit_status (fst (main (with_manifest env (file_modlist env) unparsable) sample_world)) = 1
  ∧ fst (main (with_manifest env (file_modlist env) undecodable) sample_world) =
    Raise UnicodeDecodeError "'utf-8' codec can't decode byte 0xff"
  ∧ fs (snd (main (with_manifest env (file_modlist env) unparsable) sample_world)) !! "temp"
    = None.
Proof.
  intros env.
  destruct (unparsable_manifest_fatal (with_manifest env (file_modlist env) unparsable)
              sample_world
              (snd (up_to_load (with_manifest env (file_modlist env) unparsable)
                      sample_world))) as [Hjson _]; [reflexivity|].
  destruct (unparsable_manifest_fatal (with_manifest env (file_modlist env) undecodable)
              sample_world
              (snd (up_to_load (with_manifest env (file_modlist env) undecodable)
                      sample_world))) as [_ Hother]; [reflexivity|].
  rewrite (Hjson _ eq_refl), (Hother _ _ eq_refl); done.
Defined.

Lemma rejection_reasons_witness :
  rejected (JInt 3) = Some "'int' object has no attribute 'get'"
  ∧ rejected (JDict [("State", JDict [])]) = Some "The entry does not contain a State object"
  ∧ rejected entry_other = Some "Unsupported download type OtherDownloader"
  ∧ rejected entry_no_author = Some "The entry is missing a required attribute".
Proof.
  split; [|split; [|split]].
  - by apply (proj1 (rejection_reasons (JInt 3))).
  - by eapply (proj1 (proj2 (rejection_reasons (JDict [("State", JDict [])])))).
  - destruct (proj1 (proj2 (proj2 (proj2 (proj2 (rejection_reasons entry_other)))))
               [("$type", JString "OtherDownloader")] (JString "OtherDownloader"))
      as [Hr _]; [reflexivity..|]. exact Hr.
  - destruct (proj2 (proj2 (proj2 (proj2 (proj2 (rejection_reasons entry_no_author)))))
               [("$type", NEXUS); ("Name", JString "Foo"); ("FileID", JInt 1);
                ("ModID", JInt 2); ("GameName", JString "skyrimspecialedition")] NEXUS)
      as [Hr _]; [reflexivity..|]. exact Hr.
Defined.

Lemma accepted_record_fields_witness :
  ∃ state, state_of entry_foo = Some state ∧ dict_get "FileID" state = Some (JInt 1).
Proof.
  destruct (accepted_record_fields entry_foo
              {| name := JString "Foo"; author := JString "Bar"; file_id := JInt 1;
                 mod_id := JInt 2; game := JString "skyrimspecialedition" |})
    as (state & Hs & _ & _ & Hf & _); [reflexivity|].
  by exists state.
Defined.

Lemma text_tag_accepted_iff_witness :
  is_Some (accepted entry_foo) ∧ ¬ is_Some (accepted entry_lower_case).
Proof.
  split.
  - apply (text_tag_accepted_iff entry_foo
             (nexus_state NEXUS (JString "Foo") (JString "Bar") (JInt 1) (JInt 2)
                (JString "skyrimspecialedition"))
             "NexusDownloader, Wabbajack.Lib" eq_refl eq_refl).
    split; [by exists "", ", Wabbajack.Lib"|reflexivity].
  - by intros [? ?].
Defined.

Lemma warnings_carry_index_witness :
  error_line "Error for entry 1: Unsupported download type OtherDownloader"
  ∈ stdout (snd (validate_loop 0 archives_mixed [] sample_world)).
Proof.
  by eapply (warnings_carry_index archives_mixed sample_world
               (omap accepted archives_mixed)
               (snd (validate_loop 0 archives_mixed [] sample_world)) 1 entry_other).
Defined.

Lemma second_run_refused_witness :
  let env := sample_env false "out.txt" manifest_mixed in
  exit_status (fst (main env (snd (main env sample_world)))) = 1.
Proof.
  intros env. by apply (second_run_refused env sample_world).
Defined.

Lemma progress_lines_witness :
  stdout (snd (up_to_validation (sample_env false "out.txt" manifest_mixed) sample_world)) =
  [info_line "Trying to use file list.wabbajack";
   info_line "Successfully checked requirements";
   info_line "Successfully parsed modlist";
   info_line "Got 4 in modlist"].
Proof.
  by rewrite (progress_lines (sample_env false "out.txt" manifest_mixed) sample_world
                archives_mixed
                (snd (up_to_validation (sample_env false "out.txt" manifest_mixed)
                        sample_world))).
Defined.

Lemma write_output_result_witness :
  let env := sample_env false "out.txt" manifest_mixed in
  let foo := {| name := JString "Foo"; author := JString "Bar"; file_id := JInt 1;
                mod_id := JInt 2; game := JString "skyrimspecialedition" |} in
  write_output env [foo] sample_world =
  (Ret tt, set_fs (insert "out.txt" (File (blocks env [foo]))) sample_world).
Proof.
  intros env foo.
  apply (write_output_result env [foo] sample_world). repeat constructor.
Defined.

Lemma flag_changes_output_only_witness :
  let env := sample_env false "out.txt" manifest_mixed in
  fst (main (with_use_mods env true) sample_world) = fst (main env sample_world)
  ∧ stdout (snd (main (with_use_mods env true) sample_world))
    = stdout (snd (main env sample_world)).
Proof.
  intros env.
  destruct (flag_changes_output_only env true sample_world) as (Hfst & Hout & _);
    [|by split].
  intros archives w2 Hu.
  assert (archives = archives_mixed) as ->.
  { assert (fst (up_to_validation env sample_world) = Ret archives_mixed) as Hu'
      by reflexivity.
    rewrite Hu in Hu'. by injection Hu'. }
  repeat constructor; intros r flag Hr; vm_compute in Hr; simplify_eq; by destruct flag.
Defined.
